(** * P2PFileTransfer: the staging registry, the discovery loop and the
      direct transfer protocol

    A shallow embedding of [windows.py] and [macos.py].  The two files
    carry the same Flask handlers and the same socket code; where they
    differ (the acceptance prompt of the receive handler, the window
    refresh of the sender, the notices) the difference is selected by a
    [platform] value.  The discovery loop exists in the Windows build
    only.

    Conventions of the embedding:
    - the disk is a finite map from paths to the contents of regular
      files, and takes every write unless a handler is told otherwise;
    - the attributes of the application object are the fields of the
      record [P2PFileTransfer]; an HTTP handler takes the object and the
      disk and returns the new object, the new disk and what it answered;
    - the socket code runs in a small monad over a [world] (disk, socket,
      events so far) in which a computation may raise;
    - what the interpreter or the operating system decides (the uuid, the
      clock, the answer of a dialog, whether a socket call raises) is an
      argument of the handler or a field of the world;
    - an outgoing JSON message is recorded as the value handed to
      [json.dumps]; the standard library functions that the claims do not
      depend on the text of ([json.loads], [str], [os.path.join],
      [pathlib]) are variables of the section that uses them, and are
      given concrete instances to run the examples. *)

From Stdlib Require Import ZArith Lia Ascii.
From stdpp Require Import base option list strings pretty gmap.

Open Scope string_scope.
Open Scope list_scope.

Set Warnings "-abstract-large-number".

(** ** Values shared by all parts *)

Abbreviation bytes := (list Byte.byte).

(** The disk: regular files only, addressed by their path. *)
Abbreviation filesystem := (gmap string bytes).

(** [os.path.exists] and [os.path.getsize]. *)
Definition path_exists (fs : filesystem) (p : string) : bool :=
  bool_decide (is_Some (fs !! p)).

Definition getsize (fs : filesystem) (p : string) : option nat :=
  length <$> fs !! p.

(** Decoded JSON, as [json.loads] returns it and [jsonify] / [json.dumps]
    take it.  A dict is the list of its items in insertion order; numbers
    with a fraction are outside the embedding. *)
#[local] Unset Elimination Schemes.
Inductive json : Type :=
| JNull
| JBool (b : bool)
| JInt (n : Z)
| JStr (s : string)
| JList (items : list json)
| JDict (items : list (string * json)).
#[local] Set Elimination Schemes.

(** The exceptions the modelled code can meet; all are subclasses of
    [Exception]. *)
Inductive exn : Type :=
| KeyError
| TypeError
| ValueError
| OSError
| OverflowError
| AttributeError.

(** Computations that may raise. *)
Definition result (A : Type) : Type := exn + A.

#[global] Instance result_ret : MRet result := λ A a, inr a.
#[global] Instance result_bind : MBind result :=
  λ A B k m, match m with inl e => inl e | inr a => k a end.

Definition raise {A} (e : exn) : result A := inl e.

(** [d.get(k)] on the item list of a dict. *)
Fixpoint dict_get (items : list (string * json)) (k : string) : option json :=
  match items with
  | [] => None
  | (k', v) :: rest => if decide (k' = k) then Some v else dict_get rest k
  end.

(** [v[k]] for a string literal [k]: only a dict can be indexed by a
    string; a missing key is a [KeyError]. *)
Definition subscript (v : json) (k : string) : result json :=
  match v with
  | JDict items =>
      match dict_get items k with
      | Some x => mret x
      | None => raise KeyError
      end
  | _ => raise TypeError
  end.

(** ** The application object *)

Inductive platform : Type := Windows | MacOS.

(** An entry of [self.pending_files]. *)
Record PendingFile : Type := mkPendingFile {
  pf_id : string;
  pf_name : string;
  pf_path : string;
  pf_size : nat;
  pf_upload_time : string;
  pf_status : string
}.

(** An entry of [self.transfer_history]. *)
Record TransferRecord : Type := mkTransferRecord {
  tr_file_name : string;
  tr_device : string;
  tr_transfer_time : string;
  tr_status : string
}.

(** An entry of [self.devices]; the fields are stored as decoded, and
    [last_seen] is the reading of the clock. *)
Record Device : Type := mkDevice {
  dev_name : json;
  dev_ip : json;
  dev_port : json;
  dev_last_seen : Z
}.

(** The attributes set by [__init__] that the modelled code reads or
    writes.  [root], [device_listbox] and [progress_var] only record
    whether the attribute is [None]. *)
Record P2PFileTransfer : Type := mkApp {
  web_port : Z;
  device_name : string;
  devices : gmap string Device;
  running : bool;
  pending_files : gmap string PendingFile;
  transfer_history : list TransferRecord;
  root : bool;
  device_listbox : bool;
  progress_var : bool
}.

(** The object as [__init__] leaves it. *)
Definition init (hostname : string) : P2PFileTransfer :=
  {| web_port := 4848;
     device_name := hostname;
     devices := ∅;
     running := true;
     pending_files := ∅;
     transfer_history := [];
     root := false;
     device_listbox := false;
     progress_var := false |}.

Definition set_pending_files (self : P2PFileTransfer)
    (m : gmap string PendingFile) : P2PFileTransfer :=
  {| web_port := web_port self;
     device_name := device_name self;
     devices := devices self;
     running := running self;
     pending_files := m;
     transfer_history := transfer_history self;
     root := root self;
     device_listbox := device_listbox self;
     progress_var := progress_var self |}.

Definition set_transfer_history (self : P2PFileTransfer)
    (h : list TransferRecord) : P2PFileTransfer :=
  {| web_port := web_port self;
     device_name := device_name self;
     devices := devices self;
     running := running self;
     pending_files := pending_files self;
     transfer_history := h;
     root := root self;
     device_listbox := device_listbox self;
     progress_var := progress_var self |}.

Definition set_devices (self : P2PFileTransfer)
    (d : gmap string Device) : P2PFileTransfer :=
  {| web_port := web_port self;
     device_name := device_name self;
     devices := d;
     running := running self;
     pending_files := pending_files self;
     transfer_history := transfer_history self;
     root := root self;
     device_listbox := device_listbox self;
     progress_var := progress_var self |}.

(** ** The HTTP staging surface ([setup_flask_app]) *)

(** What a view function returns. [Jsonify] is [jsonify(body), status];
    [SendFile] is the attachment built by Flask's [send_file];
    [InternalServerError] is Flask's answer to a view that raised. *)
Inductive response : Type :=
| Jsonify (status : Z) (body : json)
| SendFile (download_name : string) (data : bytes)
| InternalServerError.

Definition status_code (r : response) : Z :=
  match r with
  | Jsonify s _ => s
  | SendFile _ _ => 200
  | InternalServerError => 500
  end.

(** An uploaded part of [request.files]. *)
Record FileStorage : Type := mkFileStorage {
  filename : string;
  stream : bytes
}.

(** Flask's [send_file(path, as_attachment=True, download_name=name)]:
    it raises when nothing is stored under [path]. *)
Definition flask_send_file (fs : filesystem) (path name : string) : response :=
  match fs !! path with
  | Some data => SendFile name data
  | None => InternalServerError
  end.

(** [posixpath.join] with two arguments, the instance of [os.path.join]
    on macOS. *)
Definition ends_with_slash (s : string) : bool :=
  match rev (String.list_ascii_of_string s) with
  | c :: _ => bool_decide (c = "/"%char)
  | [] => false
  end.

Definition starts_with_slash (s : string) : bool :=
  match s with
  | String c _ => bool_decide (c = "/"%char)
  | EmptyString => false
  end.

Definition posixpath_join (a b : string) : string :=
  if starts_with_slash b then b
  else if bool_decide (a = "") || ends_with_slash a then a +:+ b
  else a +:+ "/" +:+ b.

Section Staging.

(** [os.path.expanduser('~')] and [os.path.join]; the latter is applied
    from left to right when given three arguments. *)
Variable expanduser_home : string.
Variable os_path_join : string → string → string.

(** [os.path.join(os.path.expanduser('~'), 'Desktop', file.filename)] *)
Definition desktop_path (name : string) : string :=
  os_path_join (os_path_join expanduser_home "Desktop") name.

(** [GET /api/pending_files] and [GET /api/transfer_history].  The
    entries come in the order of the map, which is not the insertion
    order of a Python dict. *)
Definition get_pending_files (self : P2PFileTransfer) : list PendingFile :=
  (map_to_list (pending_files self)).*2.

Definition get_transfer_history (self : P2PFileTransfer) : list TransferRecord :=
  transfer_history self.

(** [POST /api/upload].  [request_files] is [request.files]; [file_id]
    is [str(uuid.uuid4())], [now] the formatted clock, [writable]
    whether [file.save] succeeds. *)
Definition upload_file (self : P2PFileTransfer) (fs : filesystem)
    (request_files : gmap string FileStorage)
    (file_id now : string) (writable : bool)
  : P2PFileTransfer * filesystem * response :=
  match request_files !! "file" with
  | None => (self, fs, Jsonify 400 (JDict [("error", JStr "Dosya bulunamadı")]))
  | Some file =>
      if decide (filename file = "") then
        (self, fs, Jsonify 400 (JDict [("error", JStr "Dosya seçilmedi")]))
      else
        let temp_path := desktop_path (filename file) in
        if writable then
          let fs' := <[temp_path := stream file]> fs in
          match getsize fs' temp_path with
          | Some size =>
              let entry :=
                {| pf_id := file_id;
                   pf_name := filename file;
                   pf_path := temp_path;
                   pf_size := size;
                   pf_upload_time := now;
                   pf_status := "pending" |} in
              (set_pending_files self (<[file_id := entry]> (pending_files self)),
               fs',
               Jsonify 200 (JDict [("success", JBool true); ("file_id", JStr file_id)]))
          | None => (self, fs', InternalServerError)
          end
        else (self, fs, InternalServerError)
  end.

(** [GET /api/download/<file_id>]. *)
Definition download_file (self : P2PFileTransfer) (fs : filesystem)
    (file_id now : string)
  : P2PFileTransfer * filesystem * response :=
  match pending_files self !! file_id with
  | None => (self, fs, Jsonify 404 (JDict [("error", JStr "Dosya bulunamadı")]))
  | Some file_info =>
      let self1 :=
        set_transfer_history self
          (transfer_history self ++
             [ {| tr_file_name := pf_name file_info;
                  tr_device := device_name self;
                  tr_transfer_time := now;
                  tr_status := "completed" |} ]) in
      let self2 := set_pending_files self1 (delete file_id (pending_files self1)) in
      (self2, fs, flask_send_file fs (pf_path file_info) (pf_name file_info))
  end.

(** [DELETE /api/remove/<file_id>]. *)
Definition remove_file (self : P2PFileTransfer) (fs : filesystem)
    (file_id : string)
  : P2PFileTransfer * filesystem * response :=
  match pending_files self !! file_id with
  | None => (self, fs, Jsonify 404 (JDict [("error", JStr "Dosya bulunamadı")]))
  | Some file_info =>
      let fs' :=
        if path_exists fs (pf_path file_info)
        then delete (pf_path file_info) fs
        else fs in
      (set_pending_files self (delete file_id (pending_files self)),
       fs',
       Jsonify 200 (JDict [("success", JBool true)]))
  end.

End Staging.

(** ** The discovery loop ([start_discovery_service], Windows build) *)

(** A socket address, [(host, port)]. *)
Abbreviation address := (string * Z)%type.

(** What goes out on a socket: [json.dumps(v).encode()] for a decoded value
    [v], or raw bytes.  The event records the value that was encoded. *)
Inductive payload : Type :=
| JsonText (v : json)
| Raw (data : bytes).

(** What the socket code does to its surroundings, in program order. *)
Inductive event : Type :=
| Sendto (message : json) (addr : address)
| Print (site : string) (e : exn)
| ListboxReplace (rows : list string)
| AskYesNo (name size : json)
| IncomingNotice (name size : json)
| ReceivedNotice (file_path : string)
| Connect (ip : string) (port : Z)
| Send (p : payload)
| ProgressSet (sent total : nat)
| ProgressReset
| UpdateIdletasks
| SentNotice (name : string)
| ShowInfo (text : string)
| ShowError (text : string)
| ShowSendError (e : exn)
| SendFailureNotice (e : exn)
| Close.

(** [v == s] for a string literal [s]. *)
Definition eq_str (v : json) (s : string) : bool :=
  match v with
  | JStr t => bool_decide (t = s)
  | _ => false
  end.

(** What one turn of the loop gets from outside: the outcome of
    [recvfrom(1024)], the answer of [get_local_ip()], whether [sendto]
    goes through, and the reading of [time.time()]. *)
Record turn : Type := mkTurn {
  recvfrom : result (bytes * address);
  local_ip : string;
  sendto_ok : bool;
  clock : Z
}.

(** The loop is fed turns; [QuitApp] is [quit_app] running in the tray
    thread between two turns. *)
Inductive loop_input : Type :=
| Recv (t : turn)
| QuitApp.

Definition set_running (self : P2PFileTransfer) (b : bool) : P2PFileTransfer :=
  {| web_port := web_port self;
     device_name := device_name self;
     devices := devices self;
     running := b;
     pending_files := pending_files self;
     transfer_history := transfer_history self;
     root := root self;
     device_listbox := device_listbox self;
     progress_var := progress_var self |}.

Section Discovery.

(** [json.loads(data.decode())], [None] when either step raises (both
    raise a [ValueError]); [str(v)] as used by an f-string. *)
Variable json_loads : bytes → option json.
Variable py_str : json → string.

Definition loads (data : bytes) : result json :=
  match json_loads data with
  | Some v => mret v
  | None => raise ValueError
  end.

(** [update_device_list]: only acts when a listbox was created (none is,
    in either build); the listbox calls are taken not to raise. *)
Definition update_device_list (self : P2PFileTransfer) : list event :=
  if device_listbox self then
    [ListboxReplace
       ((λ kv, py_str (dev_name kv.2) +:+ " - " +:+ kv.1) <$> map_to_list (devices self))]
  else [].

(** The key under which a response is filed:
    [f"{message['ip']}:{message['port']}"]. *)
Definition device_id_of (ip port : json) : string :=
  py_str ip +:+ ":" +:+ py_str port.

(** The body of the inner [try] of [discovery_thread]. *)
Definition discovery_body (self : P2PFileTransfer) (t : turn)
  : result (P2PFileTransfer * list event) :=
  '(data, addr) ← recvfrom t;
  message ← loads data;
  ty ← subscript message "type";
  if eq_str ty "discovery" then
    let response :=
      JDict [("type", JStr "response");
             ("device_name", JStr (device_name self));
             ("ip", JStr (local_ip t))] in
    if sendto_ok t then mret (self, [Sendto response addr])
    else raise OSError
  else if eq_str ty "response" then
    ip ← subscript message "ip";
    port ← subscript message "port";
    name ← subscript message "device_name";
    let device_id := device_id_of ip port in
    let self' :=
      set_devices self
        (<[device_id := {| dev_name := name;
                           dev_ip := ip;
                           dev_port := port;
                           dev_last_seen := clock t |}]> (devices self)) in
    mret (self', update_device_list self')
  else mret (self, []).

(** One turn of the [while]: the body under its [except Exception]. *)
Definition discovery_iteration (self : P2PFileTransfer) (t : turn)
  : P2PFileTransfer * list event :=
  match discovery_body self t with
  | inr r => r
  | inl e => (self, if running self then [Print "Discovery error" e] else [])
  end.

(** [while self.running: ...] over the turns the environment offers.
    Returns the object, the events, and the inputs that were not
    consumed because the loop had stopped. *)
Fixpoint discovery_loop (self : P2PFileTransfer) (inputs : list loop_input)
  : P2PFileTransfer * list event * list loop_input :=
  match inputs with
  | [] => (self, [], [])
  | i :: rest =>
      if running self then
        match i with
        | Recv t =>
            let '(self1, out1) := discovery_iteration self t in
            let '(self2, out2, unread) := discovery_loop self1 rest in
            (self2, out1 ++ out2, unread)
        | QuitApp => discovery_loop (set_running self false) rest
        end
      else (self, [], inputs)
  end.

(** [discovery_thread]: the loop under the outer [try], which guards the
    creation of the socket. *)
Definition discovery_thread (self : P2PFileTransfer) (socket_ok : bool)
    (inputs : list loop_input)
  : P2PFileTransfer * list event * list loop_input :=
  if socket_ok then discovery_loop self inputs
  else (self, [Print "Discovery service error" OSError], inputs).

(** What a turn has to say about the peer table, read off the datagram
    alone: a decodable message of type [response] that carries [ip],
    [port] and [device_name] names a key and the entry to file under it;
    any other turn names nothing. *)
Definition response_entry (t : turn) : option (string * Device) :=
  match recvfrom t with
  | inr (data, _) =>
      match json_loads data with
      | Some message =>
          match subscript message "type", subscript message "ip",
                subscript message "port", subscript message "device_name" with
          | inr ty, inr ip, inr port, inr name =>
              if eq_str ty "response" then
                Some (device_id_of ip port,
                      {| dev_name := name; dev_ip := ip; dev_port := port;
                         dev_last_seen := clock t |})
              else None
          | _, _, _, _ => None
          end
      | None => None
      end
  | inl _ => None
  end.

(** The entry named for key [k] by the last turn of [ts] that names one. *)
Fixpoint latest (k : string) (ts : list turn) : option Device :=
  match ts with
  | [] => None
  | t :: rest =>
      match latest k rest with
      | Some d => Some d
      | None =>
          match response_entry t with
          | Some (k', d) => if decide (k' = k) then Some d else None
          | None => None
          end
      end
  end.

End Discovery.

(** ** The direct transfer ([handle_file_transfer], [send_file]) *)

(** What the peer delivers on a connected socket: data segments, or a
    reset.  The end of the list is the peer's orderly close. *)
Inductive arrival : Type :=
| Segment (data : bytes)
| ConnReset.

(** The surroundings of the socket code: the disk, what is still to arrive
    on the socket, whether [connect] goes through, whether each of the
    successive [send] calls goes through (a missing entry means it does),
    and the events so far. *)
Record world : Type := mkWorld {
  disk : filesystem;
  inbound : list arrival;
  reachable : bool;
  send_oracle : list bool;
  trace : list event
}.

(** Code that acts on the world and may raise; [None] is a loop that was
    given too little fuel. *)
Definition io (A : Type) : Type := world → option (world * result A).

#[global] Instance io_ret : MRet io := λ A a w, Some (w, inr a).
#[global] Instance io_bind : MBind io :=
  λ A B k m w,
    match m w with
    | None => None
    | Some (w', inl e) => Some (w', inl e)
    | Some (w', inr a) => k a w'
    end.

Definition io_raise {A} (e : exn) : io A := λ w, Some (w, inl e).
Definition lift {A} (r : result A) : io A := λ w, Some (w, r).
Definition out_of_fuel {A} : io A := λ _, None.

Definition emit (e : event) : io () :=
  λ w, Some ({| disk := disk w; inbound := inbound w; reachable := reachable w;
                send_oracle := send_oracle w; trace := trace w ++ [e] |}, inr ()).

(** [try: body except Exception as e: handler e] *)
Definition try_except {A} (body : io A) (handler : exn → io A) : io A :=
  λ w,
    match body w with
    | None => None
    | Some (w', inl e) => handler e w'
    | Some (w', inr a) => Some (w', inr a)
    end.

(** [try: body finally: cleanup] *)
Definition finally {A} (body : io A) (cleanup : io ()) : io A :=
  λ w,
    match body w with
    | None => None
    | Some (w', r) =>
        match cleanup w' with
        | None => None
        | Some (w'', inl e) => Some (w'', inl e)
        | Some (w'', inr _) => Some (w'', r)
        end
    end.

(** [socket.recv(n)]: at most [n] bytes of the segment at hand; the empty
    result is the orderly close. *)
Fixpoint take_segment (n : nat) (inb : list arrival) : result bytes * list arrival :=
  match inb with
  | [] => (inr [], [])
  | ConnReset :: rest => (inl OSError, rest)
  | Segment [] :: rest => take_segment n rest
  | Segment data :: rest =>
      (inr (take n data),
       match drop n data with
       | [] => rest
       | later => Segment later :: rest
       end)
  end.

Definition recv (n : nat) : io bytes :=
  λ w,
    let '(r, inb) := take_segment n (inbound w) in
    Some ({| disk := disk w; inbound := inb; reachable := reachable w;
             send_oracle := send_oracle w; trace := trace w |}, r).

(** [socket.send(data)]; the code never looks at the count it returns. *)
Definition sock_send (p : payload) : io () :=
  λ w,
    match send_oracle w with
    | false :: later =>
        Some ({| disk := disk w; inbound := inbound w; reachable := reachable w;
                 send_oracle := later; trace := trace w |}, inl OSError)
    | _ =>
        Some ({| disk := disk w; inbound := inbound w; reachable := reachable w;
                 send_oracle := tail (send_oracle w);
                 trace := trace w ++ [Send p] |}, inr ())
    end.

(** [open(path, 'wb')] and [f.write(chunk)] on the file so opened. *)
Definition open_wb (path : string) : io () :=
  λ w, Some ({| disk := <[path := []]> (disk w); inbound := inbound w;
                reachable := reachable w; send_oracle := send_oracle w;
                trace := trace w |}, inr ()).

Definition file_write (path : string) (chunk : bytes) : io () :=
  λ w, Some ({| disk := <[path := default [] (disk w !! path) ++ chunk]> (disk w);
                inbound := inbound w; reachable := reachable w;
                send_oracle := send_oracle w; trace := trace w |}, inr ()).

(** The file a path names, if any ([Path.exists], and what [open(path,
    'rb')] will read). *)
Definition stat_file (path : string) : io (option bytes) :=
  λ w, Some (w, inr (disk w !! path)).

(** An operand of [<] and [-] next to an [int]: integers and booleans. *)
Definition to_int (v : json) : result Z :=
  match v with
  | JInt n => mret n
  | JBool b => mret (Z.b2z b)
  | _ => raise TypeError
  end.

(** The largest chunk asked of [recv] or [read], and the size of the
    header frame. *)
Definition CHUNK : nat := 8192.
Definition HEADER_FRAME : nat := 1024.

Definition REJECTED : bytes := String.list_byte_of_string "REJECTED".

Section Transfer.

Variable json_loads : bytes → option json.

(** [str(Path.home() / "Downloads" / name)] and [Path(p).name]. *)
Variable downloads_file : string → string.
Variable path_name : string → string.

(** [while received < filesize: ...] of the receive handler. *)
Fixpoint receive_loop (fuel : nat) (file_path : string) (filesize received : Z)
  : io () :=
  if (received <? filesize)%Z then
    match fuel with
    | O => out_of_fuel
    | S fuel' =>
        chunk ← recv (Z.to_nat (Z.min (Z.of_nat CHUNK) (filesize - received)));
        match chunk with
        | [] => mret ()
        | _ =>
            file_write file_path chunk;;
            receive_loop fuel' file_path filesize (received + Z.of_nat (length chunk))
        end
    end
  else mret ().

(** [handle_file_transfer(client_socket)].  [answer] is what the user
    clicks in the Windows dialog; the macOS build accepts by itself. *)
Definition handle_file_transfer (plat : platform) (answer : bool) : io () :=
  finally
    (try_except
       (header ← recv HEADER_FRAME;
        file_info ← lift (loads json_loads header);
        name ← lift (subscript file_info "filename");
        filesize ← lift (subscript file_info "filesize");
        result ← match plat with
                 | Windows => emit (AskYesNo name filesize);; mret answer
                 | MacOS => emit (IncomingNotice name filesize);; mret true
                 end;
        if result : bool then
          file_path ← match name with
                      | JStr s => mret (downloads_file s)
                      | _ => io_raise TypeError
                      end;
          open_wb file_path;;
          size ← lift (to_int filesize);
          receive_loop (Z.to_nat size) file_path size 0;;
          emit (ReceivedNotice file_path)
        else sock_send (Raw REJECTED))
       (λ e, emit (Print "File transfer error" e)))
    (emit Close).

(** [while sent < total_size: ...] of the sender; [later] is what the
    open file has not yet handed out. *)
Fixpoint send_loop (fuel : nat) (plat : platform) (self : P2PFileTransfer)
    (total_size sent : nat) (later : bytes) : io () :=
  if (sent <? total_size)%nat then
    match fuel with
    | O => out_of_fuel
    | S fuel' =>
        match take CHUNK later with
        | [] => mret ()
        | chunk =>
            sock_send (Raw chunk);;
            let sent' := (sent + length chunk)%nat in
            (if progress_var self then
               emit (ProgressSet sent' total_size);;
               match plat with
               | Windows =>
                   if root self then emit UpdateIdletasks else io_raise AttributeError
               | MacOS =>
                   if root self then emit UpdateIdletasks else mret ()
               end
             else mret ());;
            send_loop fuel' plat self total_size sent' (drop CHUNK later)
        end
    end
  else mret ().

(** [client_socket.connect((target_device['ip'], target_device['port']))] *)
Definition connect (target_device : Device) : io () :=
  match dev_ip target_device, to_int (dev_port target_device) with
  | JStr ip, inr port =>
      if bool_decide (0 ≤ port ≤ 65535)%Z then
        λ w, if reachable w then emit (Connect ip port) w else io_raise OSError w
      else io_raise OverflowError
  | _, _ => io_raise TypeError
  end.

(** The statements of [send_file] under its [try] once the file is known
    to exist, and the handler of its [except]. *)
Definition sending (plat : platform) (self : P2PFileTransfer)
    (file_path : string) (target_device : Device) (content : bytes) : io () :=
  connect target_device;;
  sock_send (JsonText (JDict [("filename", JStr (path_name file_path));
                              ("filesize", JInt (Z.of_nat (length content)))]));;
  send_loop (length content) plat self (length content) 0 content;;
  match plat with
  | Windows => emit (ShowInfo "File sent successfully!")
  | MacOS =>
      emit (SentNotice (path_name file_path));;
      if root self then emit (ShowInfo "File sent successfully!") else mret ()
  end.

Definition send_failed (plat : platform) (self : P2PFileTransfer) (e : exn) : io () :=
  match plat with
  | Windows => emit (ShowSendError e)
  | MacOS => if root self then emit (ShowSendError e) else emit (SendFailureNotice e)
  end.

(** [send_file(file_path, target_device)].  The name [client_socket] is
    bound exactly when the early return is not taken; the file is taken
    not to change between [exists], [stat] and [read]. *)
Definition send_file (plat : platform) (self : P2PFileTransfer)
    (file_path : string) (target_device : Device) : io () :=
  file ← stat_file file_path;
  finally
    (try_except
       (match file with
        | None =>
            match plat with
            | Windows => emit (ShowError "File not found!")
            | MacOS => if root self then emit (ShowError "File not found!") else mret ()
            end
        | Some content => sending plat self file_path target_device content
        end)
       (send_failed plat self))
    ((if file is Some _ then emit Close else mret ());;
     if progress_var self then emit ProgressReset else mret ()).

End Transfer.



(** What the sender's loop does for a file read in the chunks [chunks]:
    each chunk is sent, and when a progress variable is there it is set
    to the share sent so far and, if there is a window, the window is
    refreshed. *)
Fixpoint chunk_events (self : P2PFileTransfer) (total_size sent : nat)
    (chunks : list bytes) : list event :=
  match chunks with
  | [] => []
  | chunk :: rest =>
      Send (Raw chunk) ::
      (if progress_var self then
         ProgressSet (sent + length chunk) total_size ::
         (if root self then [UpdateIdletasks] else [])
       else []) ++
      chunk_events self total_size (sent + length chunk) rest
  end.

(** What the sender shows after the last chunk. *)
Definition sent_events (path_name : string → string) (plat : platform)
    (self : P2PFileTransfer) (file_path : string) : list event :=
  match plat with
  | Windows => [ShowInfo "File sent successfully!"]
  | MacOS =>
      SentNotice (path_name file_path) ::
      (if root self then [ShowInfo "File sent successfully!"] else [])
  end.

(** The progress variable, when there is one, can be refreshed: on
    Windows the code refreshes the window without asking whether there is
    one. *)
Definition progress_usable (plat : platform) (self : P2PFileTransfer) : Prop :=
  progress_var self = false ∨ root self = true ∨ plat = MacOS.

(** [m] comes back in every world, having added events none of which is
    [Close]; [calm] when in addition it never raises. *)
Definition quiet {A} (m : io A) : Prop :=
  ∀ w, ∃ w' r evs, m w = Some (w', r) ∧ trace w' = trace w ++ evs ∧ Close ∉ evs.


Definition calm (m : io ()) : Prop :=
  ∀ w, ∃ w' evs, m w = Some (w', inr ()) ∧ trace w' = trace w ++ evs ∧ Close ∉ evs.


(** Every entry is filed under its own [id]. *)
Definition ids_agree (m : gmap string PendingFile) : Prop :=
  ∀ k e, m !! k = Some e → pf_id e = k.

(** ** The API routes, served one request after another *)

(** The dicts that [jsonify] is given for an entry and for a record. *)
Definition pending_json (e : PendingFile) : json :=
  JDict [("id", JStr (pf_id e));
         ("name", JStr (pf_name e));
         ("path", JStr (pf_path e));
         ("size", JInt (Z.of_nat (pf_size e)));
         ("upload_time", JStr (pf_upload_time e));
         ("status", JStr (pf_status e))].

Definition record_json (r : TransferRecord) : json :=
  JDict [("file_name", JStr (tr_file_name r));
         ("device", JStr (tr_device r));
         ("transfer_time", JStr (tr_transfer_time r));
         ("status", JStr (tr_status r))].

(** A request to one of the five [/api] routes, with what the interpreter
    supplies while it is served. *)
Inductive request : Type :=
| GetPendingFiles
| GetTransferHistory
| PostUpload (request_files : gmap string FileStorage) (file_id now : string)
             (writable : bool)
| GetDownload (file_id now : string)
| DeleteRemove (file_id : string).

Section Routes.

Variable expanduser_home : string.
Variable os_path_join : string → string → string.

(** The entry that an accepted upload files. *)
Definition filed_entry (file : FileStorage) (file_id now : string) : PendingFile :=
  {| pf_id := file_id;
     pf_name := filename file;
     pf_path := desktop_path expanduser_home os_path_join (filename file);
     pf_size := length (stream file);
     pf_upload_time := now;
     pf_status := "pending" |}.

(** The view function that Flask calls for a request. *)
Definition dispatch (self : P2PFileTransfer) (fs : filesystem) (r : request)
  : P2PFileTransfer * filesystem * response :=
  match r with
  | GetPendingFiles =>
      (self, fs, Jsonify 200 (JList (pending_json <$> get_pending_files self)))
  | GetTransferHistory =>
      (self, fs, Jsonify 200 (JList (record_json <$> get_transfer_history self)))
  | PostUpload request_files file_id now writable =>
      upload_file expanduser_home os_path_join self fs request_files file_id now writable
  | GetDownload file_id now => download_file self fs file_id now
  | DeleteRemove file_id => remove_file self fs file_id
  end.

(** A run of requests, each served to its end before the next; the
    answers come in the order of the requests. *)
Fixpoint serve_all (self : P2PFileTransfer) (fs : filesystem) (rs : list request)
  : P2PFileTransfer * filesystem * list response :=
  match rs with
  | [] => (self, fs, [])
  | r :: rest =>
      let '(self1, fs1, resp) := dispatch self fs r in
      let '(self2, fs2, resps) := serve_all self1 fs1 rest in
      (self2, fs2, resp :: resps)
  end.

(** What holds of the registry at all times: an entry is filed under its
    own id, is [pending], has a name, and points at the Desktop path of
    that name; a record is [completed] and names this device. *)
Definition registry_ok (self : P2PFileTransfer) : Prop :=
  (∀ k e, pending_files self !! k = Some e →
          pf_id e = k ∧ pf_status e = "pending" ∧ pf_name e ≠ "" ∧
          pf_path e = desktop_path expanduser_home os_path_join (pf_name e)) ∧
  Forall (λ r, tr_status r = "completed" ∧ tr_device r = device_name self)
         (transfer_history self).

End Routes.

(** A download that found its id filed: any answer but 404. *)
Definition download_hit (r : request) (resp : response) : bool :=
  match r with
  | GetDownload _ _ => negb (status_code resp =? 404)%Z
  | _ => false
  end.

(** ** More ways to look at a transfer *)

(** The exception, if any, that the receive handler meets while it reads
    the header out of a frame: a frame that does not decode, a message
    that is no dict, a dict without [filename] or without [filesize]. *)
Definition header_error (json_loads : bytes → option json) (frame : bytes)
  : option exn :=
  match json_loads frame with
  | None => Some ValueError
  | Some file_info =>
      match subscript file_info "filename" with
      | inl e => Some e
      | inr _ =>
          match subscript file_info "filesize" with
          | inl e => Some e
          | inr _ => None
          end
      end
  end.

(** The chunks that successive [f.read(8192)] hand out of what is left of
    a file, up to [fuel] of them. *)
Fixpoint read_chunks (fuel : nat) (later : bytes) : list bytes :=
  match fuel with
  | O => []
  | S fuel' =>
      match take CHUNK later with
      | [] => []
      | chunk => chunk :: read_chunks fuel' (drop CHUNK later)
      end
  end.

(** The bodies of the raw writes among some events, in order. *)
Definition raw_sends (evs : list event) : list bytes :=
  omap (λ e, match e with Send (Raw data) => Some data | _ => None end) evs.



(** ** The web server monitor ([start_web_server_monitor]) *)

(** The attributes the monitor reads and writes.  [web_server_thread]
    is [None] or the serial number of the thread object it last made. *)
Record WebServer : Type := mkWebServer {
  ws_running : bool;
  ws_web_port : Z;
  web_server_thread : option nat
}.

(** What one turn of the monitor gets from outside: the outcome of
    [connect_ex] (the error number, or an exception of the probe), what
    [is_alive()] answers for the thread that is held, and whether
    [Thread.start()] goes through. *)
Record tick : Type := mkTick {
  connect_ex : result Z;
  is_alive : bool;
  start_ok : bool
}.

Inductive monitor_event : Type :=
| PortFree (port : Z)
| ThreadStarted (serial : nat) (port : Z)
| InterfaceStarted (port : Z)
| StartupError
| Sleep (seconds : Z).

(** [is_port_in_use]: the port counts as taken only when the probe
    connects; a probe that raises says the port is free. *)
Definition is_port_in_use (outcome : result Z) : bool :=
  match outcome with
  | inr errno => bool_decide (errno = 0%Z)
  | inl _ => false
  end.

Definition next_serial (held : option nat) : nat :=
  match held with
  | Some n => S n
  | None => O
  end.

(** [start_web_server]: nothing when a live thread is held; otherwise a
    new thread object is kept and started. *)
Definition start_web_server (self : WebServer) (c : tick)
  : WebServer * list monitor_event :=
  let serial := next_serial (web_server_thread self) in
  let self' := {| ws_running := ws_running self;
                  ws_web_port := ws_web_port self;
                  web_server_thread := Some serial |} in
  let started :=
    if start_ok c
    then (self', [ThreadStarted serial (ws_web_port self);
                  InterfaceStarted (ws_web_port self)])
    else (self', [StartupError]) in
  match web_server_thread self with
  | Some _ => if is_alive c then (self, []) else started
  | None => started
  end.

(** One turn of [monitor_and_start_server]. *)
Definition monitor_turn (self : WebServer) (c : tick)
  : WebServer * list monitor_event :=
  if is_port_in_use (connect_ex c) then (self, [Sleep 60])
  else
    let '(self', out) := start_web_server self c in
    (self', PortFree (ws_web_port self) :: out ++ [Sleep 60]).

(** [while self.running: ...] over the turns the environment offers. *)
Fixpoint monitor_and_start_server (self : WebServer) (ticks : list tick)
  : WebServer * list monitor_event :=
  match ticks with
  | [] => (self, [])
  | c :: rest =>
      if ws_running self then
        let '(self1, out1) := monitor_turn self c in
        let '(self2, out2) := monitor_and_start_server self1 rest in
        (self2, out1 ++ out2)
      else (self, [])
  end.

(** The threads started among some events. *)
Definition threads_started (evs : list monitor_event) : list nat :=
  omap (λ e, match e with ThreadStarted n _ => Some n | _ => None end) evs.

(** ** Concrete surroundings, to run the definitions *)

Definition example_home : string := "/Users/u".

(** A multipart request with one part named [file]. *)
Definition one_part (name : string) (data : bytes) : gmap string FileStorage :=
  {[ "file" := {| filename := name; stream := data |} ]}.

Definition example_upload := upload_file example_home posixpath_join.


(** An upload of eleven bytes into the fresh application. *)
Definition eleven_bytes : bytes := String.list_byte_of_string "hello world".

Definition after_one_upload : P2PFileTransfer * filesystem * response :=
  example_upload (init "host") ∅ (one_part "test.txt" eleven_bytes) "id-1" "t1" true.

(** The JSON text of a flat dict of strings and integers whose strings
    need no escaping, and a decoder given by the list of the dicts it
    knows: it decodes exactly their texts. *)
Definition dquote : string := String (ascii_of_nat 34) "".

Definition scalar_text (v : json) : string :=
  match v with
  | JStr s => dquote +:+ s +:+ dquote
  | JInt n => pretty n
  | JBool true => "true"
  | JBool false => "false"
  | _ => "null"
  end.

Fixpoint items_text (items : list (string * json)) : string :=
  match items with
  | [] => ""
  | [(k, v)] => dquote +:+ k +:+ dquote +:+ ": " +:+ scalar_text v
  | (k, v) :: rest =>
      dquote +:+ k +:+ dquote +:+ ": " +:+ scalar_text v +:+ ", " +:+ items_text rest
  end.

Definition dict_text (items : list (string * json)) : bytes :=
  String.list_byte_of_string ("{" +:+ items_text items +:+ "}").

Definition loads_known (known : list (list (string * json))) (data : bytes)
  : option json :=
  dict_get ((λ items, (String.string_of_list_byte (dict_text items), JDict items)) <$> known)
           (String.string_of_list_byte data).

(** [str] on the values a wire message is made of.  The text Python
    prints for a list or a dict is not modelled; no example formats one. *)
Definition str_scalar (v : json) : string :=
  match v with
  | JStr s => s
  | JInt n => pretty n
  | JBool true => "True"
  | JBool false => "False"
  | JNull => "None"
  | JList _ | JDict _ => ""
  end.

(** The datagrams of the examples. *)
Definition discovery_msg : list (string * json) :=
  [("type", JStr "discovery"); ("device_name", JStr "laptop")].

Definition response_msg (name ip : string) (port : Z) : list (string * json) :=
  [("type", JStr "response"); ("device_name", JStr name);
   ("ip", JStr ip); ("port", JInt port)].

Definition portless_msg : list (string * json) :=
  [("type", JStr "response"); ("device_name", JStr "desk"); ("ip", JStr "10.0.0.7")].

Definition example_loads : bytes → option json :=
  loads_known [discovery_msg;
               response_msg "desk" "10.0.0.7" 5001;
               response_msg "desk-renamed" "10.0.0.7" 5001;
               response_msg "phone" "10.0.0.9" 5001;
               portless_msg].

Definition datagram (data : bytes) (now : Z) : turn :=
  {| recvfrom := inr (data, ("10.0.0.7", 40000%Z));
     local_ip := "10.0.0.2";
     sendto_ok := true;
     clock := now |}.

Definition example_iteration := discovery_iteration example_loads str_scalar.
Definition example_loop := discovery_loop example_loads str_scalar.

(** Three responses, two of them from the same address, and a run of
    turns that starts with a socket error, a payload that is no JSON and a
    response without [port]. *)
Definition three_responses : list turn :=
  [datagram (dict_text (response_msg "desk" "10.0.0.7" 5001)) 1;
   datagram (dict_text (response_msg "phone" "10.0.0.9" 5001)) 2;
   datagram (dict_text (response_msg "desk-renamed" "10.0.0.7" 5001)) 3].

Definition socket_error : turn :=
  {| recvfrom := inl OSError; local_ip := "10.0.0.2"; sendto_ok := true; clock := 0 |}.

Definition rough_turns : list turn :=
  [socket_error;
   datagram (String.list_byte_of_string "hello") 1;
   datagram (dict_text portless_msg) 2;
   datagram (dict_text (response_msg "phone" "10.0.0.9" 5001)) 3].

(** A transfer that announces ten bytes and delivers three. *)
Definition short_header : list (string * json) :=
  [("filename", JStr "a.txt"); ("filesize", JInt 10)].

Definition transfer_loads : bytes → option json := loads_known [short_header].

Definition example_downloads (name : string) : string := "/Users/u/Downloads/" +:+ name.

Definition three_bytes : bytes := [Byte.x61; Byte.x62; Byte.x63].

Definition short_connection : world :=
  {| disk := ∅;
     inbound := [Segment (dict_text short_header); Segment three_bytes];
     reachable := true;
     send_oracle := [];
     trace := [] |}.

Definition example_handle := handle_file_transfer transfer_loads example_downloads.

(** The last component of a path written with [/], for the examples. *)
Fixpoint basename_from (acc : string) (s : string) : string :=
  match s with
  | EmptyString => acc
  | String c rest =>
      if bool_decide (c = "/"%char) then basename_from "" rest
      else basename_from (acc +:+ String c "") rest
  end.

Definition basename (s : string) : string := basename_from "" s.

Definition example_send := send_file basename.

Definition desk : Device :=
  {| dev_name := JStr "desk"; dev_ip := JStr "10.0.0.7";
     dev_port := JInt 5001; dev_last_seen := 1 |}.

(** A disk with a file of three bytes and one of 8197, and a peer that
    takes whatever is written. *)
Definition long_file : bytes := replicate 8197 Byte.x00.

Definition sender_world : world :=
  {| disk := {[ "/Users/u/notes.txt" := three_bytes; "/Users/u/long.bin" := long_file ]};
     inbound := [];
     reachable := true;
     send_oracle := [];
     trace := [] |}.

(** The application with a window and a progress variable. *)
Definition windowed : P2PFileTransfer :=
  {| web_port := 4848; device_name := "host"; devices := ∅; running := true;
     pending_files := ∅; transfer_history := [];
     root := true; device_listbox := false; progress_var := true |}.

Definition notes_header : json :=
  JDict [("filename", JStr "notes.txt"); ("filesize", JInt 3)].





Definition garbage_connection : world :=
  {| disk := ∅;
     inbound := [Segment (String.list_byte_of_string "hello"); Segment three_bytes];
     reachable := true;
     send_oracle := [];
     trace := [] |}.

Definition ill_typed_desk : Device :=
  {| dev_name := JStr "desk"; dev_ip := JStr "10.0.0.7";
     dev_port := JStr "5001"; dev_last_seen := 1 |}.

Definition fresh_monitor : WebServer :=
  {| ws_running := true; ws_web_port := 4848; web_server_thread := None |}.

Definition port_free : tick :=
  {| connect_ex := inr 111%Z; is_alive := true; start_ok := true |}.

Definition port_taken : tick :=
  {| connect_ex := inr 0%Z; is_alive := true; start_ok := true |}.

Definition a_txt (data : bytes) : FileStorage := {| filename := "a.txt"; stream := data |}.

(** * Properties *)

(** ** The staging registry *)

Lemma ids_agree_empty : ids_agree ∅.
Proof. intros k e H. by rewrite lookup_empty in H. Qed.

Lemma ids_agree_insert m k e :
  ids_agree m → pf_id e = k → ids_agree (<[k := e]> m).
Proof.
  intros Hm He k' e'. rewrite lookup_insert.
  case_decide; [naive_solver | apply Hm].
Qed.

Lemma ids_agree_delete m k : ids_agree m → ids_agree (delete k m).
Proof.
  intros Hm k' e'. rewrite lookup_delete.
  case_decide; [done | apply Hm].
Qed.


Section StagingFacts.

Variable expanduser_home : string.
Variable os_path_join : string → string → string.



Lemma upload_file_accepted self fs request_files file file_id now :
  request_files !! "file" = Some file → filename file ≠ "" →
  upload_file expanduser_home os_path_join self fs request_files file_id now true
  = (set_pending_files self
       (<[file_id := {| pf_id := file_id;
                        pf_name := filename file;
                        pf_path := desktop_path expanduser_home os_path_join (filename file);
                        pf_size := length (stream file);
                        pf_upload_time := now;
                        pf_status := "pending" |}]> (pending_files self)),
     <[desktop_path expanduser_home os_path_join (filename file) := stream file]> fs,
     Jsonify 200 (JDict [("success", JBool true); ("file_id", JStr file_id)])).
Proof.
  intros Hfile Hname. unfold upload_file. rewrite Hfile.
  rewrite decide_False by done.
  unfold getsize. by rewrite lookup_insert_eq.
Qed.

Lemma upload_file_success_inv self fs request_files file_id now writable :
  status_code (upload_file expanduser_home os_path_join self fs request_files file_id now writable).2 = 200%Z →
  writable = true ∧
  ∃ file, request_files !! "file" = Some file ∧ filename file ≠ "".
Proof.
  unfold upload_file. intros Hok.
  destruct (request_files !! "file") as [file|]; [| done].
  case_decide; [done |].
  destruct writable; [| done].
  split; [done | by exists file].
Qed.


(** C9. The path recorded for an upload is the Desktop folder joined
    with the filename and nothing else: two accepted uploads of the same
    filename, in whatever states they happen, record the same path, and
    after the second one that path holds the second upload's bytes. *)
Theorem storage_path_by_filename
    selfA fsA reqA idA nowA wA selfB fsB reqB idB nowB wB fileA fileB :
  let rA := upload_file expanduser_home os_path_join selfA fsA reqA idA nowA wA in
  let rB := upload_file expanduser_home os_path_join selfB fsB reqB idB nowB wB in
  reqA !! "file" = Some fileA →
  reqB !! "file" = Some fileB →
  filename fileA = filename fileB →
  status_code rA.2 = 200%Z →
  status_code rB.2 = 200%Z →
  ∃ entryA entryB,
    pending_files rA.1.1 !! idA = Some entryA ∧
    pending_files rB.1.1 !! idB = Some entryB ∧
    pf_path entryA = desktop_path expanduser_home os_path_join (filename fileA) ∧
    pf_path entryB = pf_path entryA ∧
    rA.1.2 !! pf_path entryA = Some (stream fileA) ∧
    rB.1.2 !! pf_path entryA = Some (stream fileB).
Proof.
  intros rA rB HA HB Hsame HokA HokB. subst rA rB.
  destruct (upload_file_success_inv _ _ _ _ _ _ HokA) as (-> & fA & HfA & HnA).
  destruct (upload_file_success_inv _ _ _ _ _ _ HokB) as (-> & fB & HfB & HnB).
  rewrite (upload_file_accepted _ _ _ _ _ _ HfA HnA).
  rewrite (upload_file_accepted _ _ _ _ _ _ HfB HnB).
  simplify_eq. eexists _, _.
  split; [apply lookup_insert_eq |]. split; [apply lookup_insert_eq |].
  cbn. rewrite Hsame. by rewrite !lookup_insert_eq.
Qed.

(** The second of two uploads in a row leaves the first entry in place
    when the ids differ; what that entry points at has changed. *)
Lemma upload_twice_keeps_first_entry self fs req1 req2 file1 file2 id1 id2 t1 t2 :
  req1 !! "file" = Some file1 → filename file1 ≠ "" →
  req2 !! "file" = Some file2 → filename file2 = filename file1 →
  id1 ≠ id2 →
  let '(self1, fs1, _) := upload_file expanduser_home os_path_join self fs req1 id1 t1 true in
  let '(self2, fs2, _) := upload_file expanduser_home os_path_join self1 fs1 req2 id2 t2 true in
  ∃ entry1,
    pending_files self1 !! id1 = Some entry1 ∧
    pending_files self2 !! id1 = Some entry1 ∧
    pf_size entry1 = length (stream file1) ∧
    fs2 !! pf_path entry1 = Some (stream file2).
Proof.
  intros H1 Hn1 H2 Hsame Hne.
  rewrite (upload_file_accepted _ _ _ _ _ _ H1 Hn1).
  rewrite (upload_file_accepted _ _ _ _ _ _ H2) by congruence.
  eexists. split; [apply lookup_insert_eq |]. cbn.
  rewrite lookup_insert_ne by done. rewrite lookup_insert_eq.
  split_and!; try done. rewrite Hsame. apply lookup_insert_eq.
Qed.

End StagingFacts.

(** The handlers keep entries filed under their own id. *)
Lemma ids_agree_upload_file home join self fs request_files file_id now writable :
  ids_agree (pending_files self) →
  ids_agree (pending_files (upload_file home join self fs request_files file_id now writable).1.1).
Proof.
  intros Hids. unfold upload_file.
  destruct (request_files !! "file") as [file|]; [| done].
  case_decide; [done |]. destruct writable; [| done].
  unfold getsize. rewrite lookup_insert_eq. cbn.
  by apply ids_agree_insert.
Qed.

Lemma ids_agree_download_file self fs file_id now :
  ids_agree (pending_files self) →
  ids_agree (pending_files (download_file self fs file_id now).1.1).
Proof.
  intros Hids. unfold download_file.
  destruct (pending_files self !! file_id); [| done].
  cbn. by apply ids_agree_delete.
Qed.

Lemma ids_agree_remove_file self fs file_id :
  ids_agree (pending_files self) →
  ids_agree (pending_files (remove_file self fs file_id).1.1).
Proof.
  intros Hids. unfold remove_file.
  destruct (pending_files self !! file_id); [| done].
  cbn. by apply ids_agree_delete.
Qed.

Lemma ids_agree_init hostname : ids_agree (pending_files (init hostname)).
Proof. apply ids_agree_empty. Qed.

(** [download_file] on a filed id, as an equation. *)
Lemma download_file_present self fs file_id now entry :
  pending_files self !! file_id = Some entry →
  download_file self fs file_id now
  = (set_pending_files
       (set_transfer_history self
          (transfer_history self ++
             [ {| tr_file_name := pf_name entry;
                  tr_device := device_name self;
                  tr_transfer_time := now;
                  tr_status := "completed" |} ]))
       (delete file_id (pending_files self)),
     fs,
     flask_send_file fs (pf_path entry) (pf_name entry)).
Proof. intros H. unfold download_file. by rewrite H. Qed.

Lemma download_file_absent self fs file_id now :
  pending_files self !! file_id = None →
  download_file self fs file_id now
  = (self, fs, Jsonify 404 (JDict [("error", JStr "Dosya bulunamadı")])).
Proof. intros H. unfold download_file. by rewrite H. Qed.


(** What becomes of a download whose entry points at nothing. *)
Lemma download_file_missing_storage self fs file_id now entry :
  pending_files self !! file_id = Some entry →
  fs !! pf_path entry = None →
  (download_file self fs file_id now).2 = InternalServerError ∧
  pending_files (download_file self fs file_id now).1.1 !! file_id = None.
Proof.
  intros Hl Hfs. rewrite (download_file_present _ _ _ _ _ Hl). cbn.
  unfold flask_send_file. rewrite Hfs. split; [done | apply lookup_delete_eq].
Qed.


(** [remove_file] on a filed id, as an equation. *)
Lemma remove_file_present self fs file_id entry :
  pending_files self !! file_id = Some entry →
  remove_file self fs file_id
  = (set_pending_files self (delete file_id (pending_files self)),
     delete (pf_path entry) fs,
     Jsonify 200 (JDict [("success", JBool true)])).
Proof.
  intros H. unfold remove_file. rewrite H. unfold path_exists.
  case_bool_decide as Hex; [done |].
  apply eq_None_not_Some in Hex. by rewrite (delete_id _ _ Hex).
Qed.

Lemma remove_file_absent self fs file_id :
  pending_files self !! file_id = None →
  remove_file self fs file_id
  = (self, fs, Jsonify 404 (JDict [("error", JStr "Dosya bulunamadı")])).
Proof. intros H. unfold remove_file. by rewrite H. Qed.

(** C5. [DELETE /api/remove/<id>] never touches the history; on an id that
    is not filed it answers 404 and changes nothing; on a filed id it
    answers 200, nothing is stored under the entry's path afterwards, and
    a download or a second remove of the same id then answer 404. *)
Theorem remove_file_spec self fs file_id :
  let r := remove_file self fs file_id in
  transfer_history r.1.1 = transfer_history self ∧
  (pending_files self !! file_id = None →
     status_code r.2 = 404%Z ∧ r.1.1 = self ∧ r.1.2 = fs) ∧
  (∀ entry, pending_files self !! file_id = Some entry →
     status_code r.2 = 200%Z ∧
     pending_files r.1.1 = delete file_id (pending_files self) ∧
     r.1.2 !! pf_path entry = None ∧
     (∀ now, status_code (download_file r.1.1 r.1.2 file_id now).2 = 404%Z) ∧
     (∀ now, transfer_history (download_file r.1.1 r.1.2 file_id now).1.1
             = transfer_history self) ∧
     status_code (remove_file r.1.1 r.1.2 file_id).2 = 404%Z).
Proof.
  intros r. subst r.
  destruct (pending_files self !! file_id) as [entry|] eqn:Hl.
  - rewrite (remove_file_present _ _ _ _ Hl).
    split; [done |]. split; [done |].
    intros ? [= <-]. cbn.
    assert (Hgone : pending_files
              (set_pending_files self (delete file_id (pending_files self)))
              !! file_id = None) by apply lookup_delete_eq.
    split_and!; [done | done | apply lookup_delete_eq | | |].
    + intros now. by rewrite (download_file_absent _ _ _ _ Hgone).
    + intros now. by rewrite (download_file_absent _ _ _ _ Hgone).
    + by rewrite (remove_file_absent _ _ _ Hgone).
  - rewrite (remove_file_absent _ _ _ Hl).
    split; [done |]. split; [done |]. intros ? [=].
Qed.

(** C10. A download leaves the disk as it was, so the bytes under the
    entry's path are still there after the entry is gone; an upload only
    writes; the one handler that deletes a stored file is [remove_file]. *)
Theorem download_file_keeps_storage home join self fs file_id now :
  (download_file self fs file_id now).1.2 = fs ∧
  (∀ entry,
     pending_files self !! file_id = Some entry →
     pending_files (download_file self fs file_id now).1.1 !! file_id = None ∧
     (download_file self fs file_id now).1.2 !! pf_path entry = fs !! pf_path entry ∧
     (remove_file self fs file_id).1.2 !! pf_path entry = None) ∧
  (∀ request_files id writable path,
     is_Some (fs !! path) →
     is_Some ((upload_file home join self fs request_files id now writable).1.2 !! path)).
Proof.
  split_and!.
  - unfold download_file. by destruct (pending_files self !! file_id).
  - intros entry Hl.
    rewrite (download_file_present _ _ _ _ _ Hl), (remove_file_present _ _ _ _ Hl).
    cbn. split_and!; [apply lookup_delete_eq | done | apply lookup_delete_eq].
  - intros request_files id writable path Hpath. unfold upload_file.
    destruct (request_files !! "file") as [file|]; [| done].
    case_decide; [done |]. destruct writable; [| done].
    unfold getsize. rewrite lookup_insert_eq. cbn.
    rewrite lookup_insert. by case_decide.
Qed.

Example desktop_path_example :
  desktop_path example_home posixpath_join "test.txt" = "/Users/u/Desktop/test.txt".
Proof. reflexivity. Qed.


(** The entry that the upload of [test.txt] files. *)
Lemma after_one_upload_entry :
  pending_files after_one_upload.1.1 !! "id-1"
  = Some {| pf_id := "id-1"; pf_name := "test.txt";
            pf_path := "/Users/u/Desktop/test.txt"; pf_size := 11;
            pf_upload_time := "t1"; pf_status := "pending" |}.
Proof. vm_compute; reflexivity. Qed.

Lemma storage_path_by_filename_witness :
  ∃ entryA entryB,
    pending_files
      (example_upload (init "host") ∅ (one_part "a.txt" [Byte.x41]) "id-1" "t1" true).1.1
      !! "id-1" = Some entryA ∧
    pending_files
      (example_upload (init "other") ∅ (one_part "a.txt" [Byte.x42]) "id-2" "t2" true).1.1
      !! "id-2" = Some entryB ∧
    pf_path entryB = pf_path entryA.
Proof.
  destruct (storage_path_by_filename example_home posixpath_join
              (init "host") ∅ (one_part "a.txt" [Byte.x41]) "id-1" "t1" true
              (init "other") ∅ (one_part "a.txt" [Byte.x42]) "id-2" "t2" true
              {| filename := "a.txt"; stream := [Byte.x41] |}
              {| filename := "a.txt"; stream := [Byte.x42] |})
    as (entryA & entryB & HA & HB & _ & Hpath & _);
    try (vm_compute; reflexivity).
  by exists entryA, entryB.
Defined.

(** The scenario of the specification: eleven bytes go in, the download
    hands the same eleven bytes out, the listing is empty again and the
    history has its one record. *)
Example upload_then_download :
  let '(self, fs, _) := after_one_upload in
  let r := download_file self fs "id-1" "t2" in
  r.2 = SendFile "test.txt" eleven_bytes ∧
  get_pending_files r.1.1 = [] ∧
  get_transfer_history r.1.1
  = [ {| tr_file_name := "test.txt"; tr_device := "host";
         tr_transfer_time := "t2"; tr_status := "completed" |} ].
Proof. vm_compute. done. Qed.



Lemma remove_file_spec_witness :
  let r := remove_file after_one_upload.1.1 after_one_upload.1.2 "id-1" in
  status_code r.2 = 200%Z ∧
  r.1.2 !! "/Users/u/Desktop/test.txt" = None ∧
  status_code (download_file r.1.1 r.1.2 "id-1" "t2").2 = 404%Z ∧
  status_code (remove_file r.1.1 r.1.2 "id-1").2 = 404%Z.
Proof.
  pose proof (remove_file_spec after_one_upload.1.1 after_one_upload.1.2 "id-1")
    as (_ & _ & Hpresent).
  destruct (Hpresent _ after_one_upload_entry) as (Hok & _ & Hdisk & Hdl & _ & Hrm).
  split_and!; [exact Hok | exact Hdisk | apply Hdl | exact Hrm].
Defined.

Lemma download_file_keeps_storage_witness :
  let r := download_file after_one_upload.1.1 after_one_upload.1.2 "id-1" "t2" in
  pending_files r.1.1 !! "id-1" = None ∧
  r.1.2 !! "/Users/u/Desktop/test.txt" = Some eleven_bytes.
Proof.
  pose proof (download_file_keeps_storage example_home posixpath_join
                after_one_upload.1.1 after_one_upload.1.2 "id-1" "t2")
    as (_ & Hpresent & _).
  destruct (Hpresent _ after_one_upload_entry) as (Hgone & Hkept & _).
  split; [exact Hgone |].
  cbn [pf_path] in Hkept. rewrite Hkept. vm_compute; reflexivity.
Defined.

Example dict_text_example :
  String.string_of_list_byte (dict_text [("a", JStr "b"); ("n", JInt 7)])
  = "{" +:+ dquote +:+ "a" +:+ dquote +:+ ": " +:+ dquote +:+ "b" +:+ dquote
    +:+ ", " +:+ dquote +:+ "n" +:+ dquote +:+ ": 7}".
Proof. reflexivity. Qed.

Example example_loads_discovery :
  example_loads (dict_text discovery_msg) = Some (JDict discovery_msg).
Proof. vm_compute; reflexivity. Qed.

Example example_loads_garbage : example_loads (String.list_byte_of_string "hello") = None.
Proof. vm_compute; reflexivity. Qed.

(** ** The discovery loop *)

Section DiscoveryFacts.

Variable json_loads : bytes → option json.
Variable py_str : json → string.


(** No turn writes anything but [devices]. *)
Lemma discovery_body_frame self t self' out :
  discovery_body json_loads py_str self t = inr (self', out) →
  ∃ d, self' = set_devices self d.
Proof.
  unfold discovery_body, loads. intros H.
  destruct (recvfrom t) as [e | [data addr]]; [done |]. cbn in H.
  destruct (json_loads data) as [message|]; [| done]. cbn in H.
  destruct (subscript message "type") as [e | ty]; [done |]. cbn in H.
  destruct (eq_str ty "discovery").
  { destruct (sendto_ok t); [| done]. injection H as <- <-.
    exists (devices self). by destruct self. }
  destruct (eq_str ty "response").
  - destruct (subscript message "ip") as [e | ip]; [done |]. cbn in H.
    destruct (subscript message "port") as [e | port]; [done |]. cbn in H.
    destruct (subscript message "device_name") as [e | name]; [done |]. cbn in H.
    injection H as <- <-. by eexists.
  - injection H as <- <-. exists (devices self). by destruct self.
Qed.

Lemma discovery_iteration_running self t :
  running (discovery_iteration json_loads py_str self t).1 = running self.
Proof.
  unfold discovery_iteration.
  destruct (discovery_body json_loads py_str self t) as [e | [self' out]] eqn:Hb; [done |].
  apply discovery_body_frame in Hb as [d ->]. done.
Qed.

(** What a turn does to the peer table is what [response_entry] reads
    off the datagram. *)
Lemma discovery_iteration_devices self t :
  devices (discovery_iteration json_loads py_str self t).1
  = match response_entry json_loads py_str t with
    | Some (k, d) => <[k := d]> (devices self)
    | None => devices self
    end.
Proof.
  unfold discovery_iteration, discovery_body, response_entry, loads.
  destruct (recvfrom t) as [e | [data addr]]; [done |]. cbn.
  destruct (json_loads data) as [message|]; [| done]. cbn.
  destruct (subscript message "type") as [e | ty]; [done |]. cbn.
  destruct ty as [| | | s | |]; cbn;
    try by repeat (destruct (subscript message _); cbn).
  case_bool_decide as Hd.
  { subst s. cbn. destruct (sendto_ok t); cbn;
      by repeat (destruct (subscript message _); cbn). }
  case_bool_decide as Hr; cbn;
    by repeat (destruct (subscript message _); cbn).
Qed.

(** C3, as the code has it.  A datagram that decodes to a message of
    type [discovery] is answered, when [sendto] goes through, by exactly
    one datagram to the sender's address; it is the dict with the three
    keys [type] (the string [response]), [device_name] (the host name)
    and [ip] (the local address), and it has no key [port].  When
    [sendto] raises nothing is sent.  The object is left as it was. *)
Theorem discovery_reply self t data addr message :
  recvfrom t = inr (data, addr) →
  json_loads data = Some message →
  subscript message "type" = inr (JStr "discovery") →
  ∃ reply,
    reply = [("type", JStr "response");
             ("device_name", JStr (device_name self));
             ("ip", JStr (local_ip t))] ∧
    dict_get reply "port" = None ∧
    (sendto_ok t = true →
     discovery_iteration json_loads py_str self t = (self, [Sendto (JDict reply) addr])) ∧
    (sendto_ok t = false →
     discovery_iteration json_loads py_str self t
     = (self, if running self then [Print "Discovery error" OSError] else [])).
Proof.
  intros Hrecv Hloads Hty. eexists. split; [reflexivity |].
  split; [reflexivity |].
  unfold discovery_iteration, discovery_body, loads.
  rewrite Hrecv. cbn. rewrite Hloads. cbn. rewrite Hty. cbn.
  split; by intros ->.
Qed.

(** The loop as a left-to-right pass over the turns. *)
Lemma discovery_loop_cons self t inputs :
  running self = true →
  discovery_loop json_loads py_str self (Recv t :: inputs)
  = ((discovery_loop json_loads py_str (discovery_iteration json_loads py_str self t).1 inputs).1.1,
     (discovery_iteration json_loads py_str self t).2 ++ (discovery_loop json_loads py_str (discovery_iteration json_loads py_str self t).1 inputs).1.2,
     (discovery_loop json_loads py_str (discovery_iteration json_loads py_str self t).1 inputs).2).
Proof.
  intros Hrun. cbn. rewrite Hrun.
  destruct (discovery_iteration _ _ self t) as [self1 out1]. cbn.
  by destruct (discovery_loop _ _ self1 inputs) as [[self2 out2] unread].
Qed.

(** C6. After the loop has taken any sequence of turns, the peer table
    holds under each key the name, ip, port and clock reading of the
    last response with that key, and what it held before under a key no
    response had. *)
Theorem peer_table_latest_response self ts k :
  running self = true →
  devices (discovery_loop json_loads py_str self (Recv <$> ts)).1.1 !! k
  = match latest json_loads py_str k ts with
    | Some d => Some d
    | None => devices self !! k
    end.
Proof.
  revert self. induction ts as [| t ts IH]; intros self Hrun; [done |].
  rewrite fmap_cons, discovery_loop_cons by done. cbn [fst snd].
  rewrite IH by (by rewrite discovery_iteration_running).
  cbn [latest].
  destruct (latest json_loads py_str k ts) as [d|]; [done |].
  rewrite discovery_iteration_devices.
  destruct (response_entry json_loads py_str t) as [[k' d'] |]; [| done].
  rewrite lookup_insert. by case_decide.
Qed.

(** C7. Whatever a turn brings (a socket error, a payload that does not
    decode, a message without the fields it needs), a body that raises
    leaves the object as it was and costs one log line, the flag
    [running] is not touched, and the loop goes on: a running loop
    takes every turn it is offered and then carries on with whatever
    comes next. *)
Theorem discovery_loop_survives self ts later :
  running self = true →
  (∀ t e, discovery_body json_loads py_str self t = inl e →
     discovery_iteration json_loads py_str self t = (self, [Print "Discovery error" e])) ∧
  (∀ t, running (discovery_iteration json_loads py_str self t).1 = true) ∧
  running (discovery_loop json_loads py_str self (Recv <$> ts)).1.1 = true ∧
  (discovery_loop json_loads py_str self (Recv <$> ts)).2 = [] ∧
  discovery_loop json_loads py_str self ((Recv <$> ts) ++ later)
  = ((discovery_loop json_loads py_str (discovery_loop json_loads py_str self (Recv <$> ts)).1.1 later).1.1,
     (discovery_loop json_loads py_str self (Recv <$> ts)).1.2 ++ (discovery_loop json_loads py_str (discovery_loop json_loads py_str self (Recv <$> ts)).1.1 later).1.2,
     (discovery_loop json_loads py_str (discovery_loop json_loads py_str self (Recv <$> ts)).1.1 later).2).
Proof.
  intros Hrun. split_and!.
  - intros t e Hb. unfold discovery_iteration. by rewrite Hb, Hrun.
  - intros t. by rewrite discovery_iteration_running.
  - revert self Hrun. induction ts as [| t ts IH]; intros self Hrun; [done |].
    rewrite fmap_cons, discovery_loop_cons by done. cbn [fst snd].
    apply IH. by rewrite discovery_iteration_running.
  - revert self Hrun. induction ts as [| t ts IH]; intros self Hrun; [done |].
    rewrite fmap_cons, discovery_loop_cons by done. cbn [fst snd].
    apply IH. by rewrite discovery_iteration_running.
  - revert self Hrun. induction ts as [| t ts IH]; intros self Hrun.
    + cbn. by destruct (discovery_loop _ _ self later) as [[? ?] ?].
    + rewrite fmap_cons, <- app_comm_cons, !discovery_loop_cons by done.
      cbn [fst snd].
      rewrite IH by (by rewrite discovery_iteration_running).
      cbn [fst snd]. by rewrite app_assoc.
Qed.

End DiscoveryFacts.

Lemma discovery_reply_witness :
  example_iteration (init "host") (datagram (dict_text discovery_msg) 0)
  = (init "host",
     [Sendto (JDict [("type", JStr "response"); ("device_name", JStr "host");
                     ("ip", JStr "10.0.0.2")])
             ("10.0.0.7", 40000%Z)]).
Proof.
  destruct (discovery_reply example_loads str_scalar (init "host")
              (datagram (dict_text discovery_msg) 0)
              (dict_text discovery_msg) ("10.0.0.7", 40000%Z) (JDict discovery_msg))
    as (reply & -> & _ & Hsent & _);
    [reflexivity | vm_compute; reflexivity | reflexivity |].
  apply Hsent. reflexivity.
Defined.

(** C3, refuted as stated: the reply to a discovery request has no field
    [port]. *)
Lemma discovery_reply_has_no_port :
  ∃ reply addr,
    (example_iteration (init "host") (datagram (dict_text discovery_msg) 0)).2
    = [Sendto (JDict reply) addr] ∧
    dict_get reply "port" = None ∧
    dict_get reply "ip" = Some (JStr "10.0.0.2").
Proof. eexists _, _. vm_compute. done. Qed.

Lemma peer_table_latest_response_witness :
  devices (example_loop (init "host") (Recv <$> three_responses)).1.1 !! "10.0.0.7:5001"
  = Some {| dev_name := JStr "desk-renamed"; dev_ip := JStr "10.0.0.7";
            dev_port := JInt 5001; dev_last_seen := 3 |}.
Proof.
  unfold example_loop.
  rewrite (peer_table_latest_response example_loads str_scalar (init "host")
             three_responses "10.0.0.7:5001" eq_refl).
  vm_compute; reflexivity.
Defined.

(** The table after the three responses has two entries. *)
Example peer_table_two_entries :
  size (devices (example_loop (init "host") (Recv <$> three_responses)).1.1) = 2.
Proof. vm_compute; reflexivity. Qed.

Lemma discovery_loop_survives_witness :
  running (example_loop (init "host") (Recv <$> rough_turns)).1.1 = true ∧
  (example_loop (init "host") (Recv <$> rough_turns)).2 = [].
Proof.
  destruct (discovery_loop_survives example_loads str_scalar (init "host")
              rough_turns [] eq_refl) as (_ & _ & Hrun & Hall & _).
  by split.
Defined.

(** The rough turns cost three log lines and still file the phone. *)
Example rough_turns_run :
  (example_loop (init "host") (Recv <$> rough_turns)).1.2
  = [Print "Discovery error" OSError;
     Print "Discovery error" ValueError;
     Print "Discovery error" KeyError] ∧
  dev_name <$> devices (example_loop (init "host") (Recv <$> rough_turns)).1.1
                 !! "10.0.0.9:5001"
  = Some (JStr "phone").
Proof. vm_compute. done. Qed.

(** [quit_app] between two turns stops the loop before the next one. *)
Example quit_stops_the_loop :
  (example_loop (init "host") [Recv socket_error; QuitApp; Recv socket_error]).2
  = [Recv socket_error].
Proof. vm_compute; reflexivity. Qed.

(** ** The direct transfer *)

Lemma CHUNK_pos : (0 < CHUNK)%nat.
Proof. apply Nat.ltb_lt. vm_compute. reflexivity. Qed.









(** The building blocks of the sender are quiet. *)
Lemma quiet_ret {A} (a : A) : quiet (mret a).
Proof.
  intros w. exists w, (inr a), [].
  split_and!; [done | by rewrite app_nil_r | apply not_elem_of_nil].
Qed.

Lemma quiet_raise {A} e : quiet (@io_raise A e).
Proof.
  intros w. exists w, (inl e), [].
  split_and!; [done | by rewrite app_nil_r | apply not_elem_of_nil].
Qed.

Lemma quiet_emit e : e ≠ Close → quiet (emit e).
Proof.
  intros He w. eexists _, (inr ()), [e]. unfold emit. cbn.
  split_and!; [done | done |]. intros Hin%list_elem_of_singleton. congruence.
Qed.

Lemma quiet_sock_send p : quiet (sock_send p).
Proof.
  intros w. unfold sock_send.
  destruct (send_oracle w) as [| [|] later].
  - eexists _, _, [Send p]. cbn. split_and!; [done | done |].
    by intros ?%list_elem_of_singleton.
  - eexists _, _, [Send p]. cbn. split_and!; [done | done |].
    by intros ?%list_elem_of_singleton.
  - eexists _, _, []. cbn. split_and!; [done | by rewrite app_nil_r |].
    apply not_elem_of_nil.
Qed.

Lemma quiet_bind {A B} (m : io A) (k : A → io B) :
  quiet m → (∀ a, quiet (k a)) → quiet (m ≫= k).
Proof.
  intros Hm Hk w. unfold mbind, io_bind.
  destruct (Hm w) as (w1 & r & evs1 & -> & Ht1 & Hc1).
  destruct r as [e | a].
  - by exists w1, (inl e), evs1.
  - destruct (Hk a w1) as (w2 & r2 & evs2 & -> & Ht2 & Hc2).
    exists w2, r2, (evs1 ++ evs2). split_and!; [done | |].
    + by rewrite Ht2, Ht1, app_assoc.
    + rewrite elem_of_app. tauto.
Qed.


Lemma calm_try_except (m : io ()) (handler : exn → io ()) :
  quiet m → (∀ e, calm (handler e)) → calm (try_except m handler).
Proof.
  intros Hm Hh w. unfold try_except.
  destruct (Hm w) as (w1 & r & evs1 & -> & Ht1 & Hc1).
  destruct r as [e | []].
  - destruct (Hh e w1) as (w2 & evs2 & -> & Ht2 & Hc2).
    exists w2, (evs1 ++ evs2). split_and!; [done | |].
    + by rewrite Ht2, Ht1, app_assoc.
    + rewrite elem_of_app. tauto.
  - by exists w1, evs1.
Qed.

Lemma quiet_progress plat self sent total_size :
  quiet (if progress_var self then
           emit (ProgressSet sent total_size);;
           match plat with
           | Windows => if root self then emit UpdateIdletasks else io_raise AttributeError
           | MacOS => if root self then emit UpdateIdletasks else mret ()
           end
         else mret ()).
Proof.
  destruct (progress_var self); [| apply quiet_ret].
  apply quiet_bind; [by apply quiet_emit |]. intros _.
  destruct plat, (root self);
    first [by apply quiet_emit | apply quiet_raise | apply quiet_ret].
Qed.

(** The sender's loop comes back whatever the socket does: it has fuel
    for every byte it may still send. *)
Lemma quiet_send_loop fuel plat self total_size sent later :
  (total_size - sent ≤ fuel)%nat →
  quiet (send_loop fuel plat self total_size sent later).
Proof.
  revert sent later. induction fuel as [| fuel IH]; intros sent later Hfuel.
  - cbn [send_loop]. destruct (sent <? total_size)%nat eqn:Hlt; [| apply quiet_ret].
    apply Nat.ltb_lt in Hlt. lia.
  - cbn [send_loop]. destruct (sent <? total_size)%nat eqn:Hlt; [| apply quiet_ret].
    apply Nat.ltb_lt in Hlt.
    destruct (take CHUNK later) as [| b chunk] eqn:Hchunk; [apply quiet_ret |].
    apply quiet_bind; [apply quiet_sock_send |]. intros _.
    apply quiet_bind; [apply quiet_progress |]. intros _.
    apply IH. cbn [length]. lia.
Qed.

(** With a socket that takes every write and a progress variable that
    can be refreshed, the loop sends the rest of the file, chunk by
    chunk. *)
Lemma send_loop_all_sent fuel plat self total_size sent later w :
  total_size = (sent + length later)%nat →
  (length later ≤ fuel)%nat →
  Forall (eq true) (send_oracle w) →
  progress_usable plat self →
  ∃ w' chunks,
    send_loop fuel plat self total_size sent later w = Some (w', inr ()) ∧
    concat chunks = later ∧
    Forall (λ c, 0 < length c ≤ CHUNK)%nat chunks ∧
    trace w' = trace w ++ chunk_events self total_size sent chunks ∧
    Forall (eq true) (send_oracle w').
Proof.
  revert sent later w.
  induction fuel as [| fuel IH]; intros sent later w Htotal Hfuel Horacle Huse.
  - destruct later; [| cbn in Hfuel; lia].
    exists w, []. cbn [send_loop].
    replace (sent <? total_size)%nat with false
      by (symmetry; apply Nat.ltb_ge; cbn in Htotal; lia).
    split_and!; [done | done | constructor | by rewrite app_nil_r | done].
  - cbn [send_loop].
    destruct (sent <? total_size)%nat eqn:Hlt.
    2:{ apply Nat.ltb_ge in Hlt. destruct later; [| cbn in Htotal; lia].
        exists w, []. split_and!; [done | done | constructor | by rewrite app_nil_r | done]. }
    apply Nat.ltb_lt in Hlt.
    destruct later as [| b later]; [cbn in Htotal; lia |].
    pose proof CHUNK_pos as Hpos.
    destruct (take CHUNK (b :: later)) as [| b' chunk] eqn:Hchunk.
    { apply (f_equal length) in Hchunk. rewrite length_take in Hchunk.
      cbn [length] in Hchunk. lia. }
    set (c := b' :: chunk) in *.
    assert (Hlen : (0 < length c ≤ CHUNK)%nat).
    { rewrite <- Hchunk, length_take. cbn [length]. lia. }
    assert (Hsplit : b :: later = c ++ drop CHUNK (b :: later))
      by (by rewrite <- Hchunk, take_drop).
    set (w1 := {| disk := disk w; inbound := inbound w; reachable := reachable w;
                  send_oracle := tail (send_oracle w);
                  trace := trace w ++ [Send (Raw c)] |}).
    assert (Hsend : sock_send (Raw c) w = Some (w1, inr ())).
    { unfold sock_send. destruct Horacle as [| [|] ? ? ?]; done. }
    set (progress :=
           if progress_var self then
             ProgressSet (sent + length c) total_size ::
             (if root self then [UpdateIdletasks] else [])
           else []).
    set (w2 := {| disk := disk w; inbound := inbound w; reachable := reachable w;
                  send_oracle := tail (send_oracle w);
                  trace := trace w ++ Send (Raw c) :: progress |}).
    assert (Hprogress :
      (if progress_var self then
         emit (ProgressSet (sent + length c) total_size);;
         match plat with
         | Windows => if root self then emit UpdateIdletasks else io_raise AttributeError
         | MacOS => if root self then emit UpdateIdletasks else mret ()
         end
       else mret ()) w1 = Some (w2, inr ())).
    { subst w1 w2 progress. unfold mbind, io_bind, emit.
      unfold progress_usable in Huse.
      destruct (progress_var self) eqn:Hp; [| done].
      destruct (root self) eqn:Hr.
      - destruct plat; cbn; by rewrite <- !app_assoc.
      - destruct Huse as [? | [? | ->]]; [done | done |].
        cbn. by rewrite <- !app_assoc. }
    destruct (IH (sent + length c)%nat (drop CHUNK (b :: later)) w2)
      as (w' & chunks & Hloop & Hcat & Hall & Htrace & Horacle').
    + rewrite Htotal, Hsplit at 1. rewrite length_app. lia.
    + apply (f_equal length) in Hsplit. rewrite length_app in Hsplit.
      cbn [length] in *. lia.
    + subst w2. cbn [send_oracle]. destruct Horacle; [constructor | done].
    + done.
    + exists w', (c :: chunks).
      unfold mbind at 1, io_bind at 1. rewrite Hsend.
      unfold mbind at 1, io_bind at 1. rewrite Hprogress.
      split_and!; [exact Hloop | | by constructor | | done].
      * cbn [concat]. by rewrite Hcat, <- Hsplit.
      * rewrite Htrace. subst w2 progress. cbn [trace chunk_events].
        by rewrite <- app_assoc.
Qed.

Section TransferFacts.

Variable json_loads : bytes → option json.
Variable downloads_file : string → string.
Variable path_name : string → string.





Lemma quiet_connect target : quiet (connect target).
Proof.
  unfold connect.
  destruct (dev_ip target); try apply quiet_raise.
  destruct (to_int (dev_port target)) as [e | port]; [apply quiet_raise |].
  case_bool_decide; [| apply quiet_raise].
  intros w. destruct (reachable w).
  - by apply quiet_emit.
  - apply quiet_raise.
Qed.

Lemma send_file_existing plat self file_path target content w :
  disk w !! file_path = Some content →
  send_file path_name plat self file_path target w
  = finally (try_except (sending path_name plat self file_path target content)
                        (send_failed plat self))
            (emit Close;; if progress_var self then emit ProgressReset else mret ()) w.
Proof.
  intros Hfile. unfold send_file, stat_file.
  unfold mbind at 1, io_bind at 1. by rewrite Hfile.
Qed.

Lemma quiet_sending plat self file_path target content :
  quiet (sending path_name plat self file_path target content).
Proof.
  unfold sending.
  apply quiet_bind; [apply quiet_connect |]. intros _.
  apply quiet_bind; [apply quiet_sock_send |]. intros _.
  apply quiet_bind; [apply quiet_send_loop; lia |]. intros _.
  destruct plat; [by apply quiet_emit |].
  apply quiet_bind; [by apply quiet_emit |]. intros _.
  destruct (root self); [by apply quiet_emit | apply quiet_ret].
Qed.

Lemma calm_send_failed plat self e : calm (send_failed plat self e).
Proof.
  intros w. unfold send_failed.
  destruct plat, (root self); eexists _, [_]; unfold emit; cbn;
    (split_and!; [done | done |]);
    intros Hin%list_elem_of_singleton; discriminate.
Qed.


(** The whole of a successful send, event by event. *)
Lemma sending_all_sent plat self file_path target content w ip port :
  dev_ip target = JStr ip → dev_port target = JInt port →
  (0 ≤ port ≤ 65535)%Z →
  reachable w = true →
  Forall (eq true) (send_oracle w) →
  progress_usable plat self →
  ∃ w' chunks,
    sending path_name plat self file_path target content w = Some (w', inr ()) ∧
    concat chunks = content ∧
    Forall (λ c, 0 < length c ≤ CHUNK)%nat chunks ∧
    trace w' = trace w ++
               [Connect ip port;
                Send (JsonText (JDict [("filename", JStr (path_name file_path));
                                       ("filesize", JInt (Z.of_nat (length content)))]))]
               ++ chunk_events self (length content) 0 chunks
               ++ sent_events path_name plat self file_path.
Proof.
  intros Hip Hport Hrange Hreach Horacle Huse.
  set (header := JDict [("filename", JStr (path_name file_path));
                        ("filesize", JInt (Z.of_nat (length content)))]).
  set (w1 := {| disk := disk w; inbound := inbound w; reachable := reachable w;
                send_oracle := send_oracle w; trace := trace w ++ [Connect ip port] |}).
  assert (Hconnect : connect target w = Some (w1, inr ())).
  { unfold connect. rewrite Hip, Hport. cbn [to_int mret result_ret].
    rewrite bool_decide_eq_true_2 by done. by rewrite Hreach. }
  set (w2 := {| disk := disk w; inbound := inbound w; reachable := reachable w;
                send_oracle := tail (send_oracle w);
                trace := (trace w ++ [Connect ip port]) ++ [Send (JsonText header)] |}).
  assert (Hheader : sock_send (JsonText header) w1 = Some (w2, inr ())).
  { unfold sock_send. subst w1 w2. cbn [send_oracle].
    destruct Horacle as [| [|] ? ? ?]; done. }
  destruct (send_loop_all_sent (length content) plat self (length content) 0
              content w2) as (w3 & chunks & Hloop & Hcat & Hall & Htrace & _);
    [done | done | | done |].
  { subst w2. cbn [send_oracle]. destruct Horacle; [constructor | done]. }
  assert (Hdone : ∃ w4,
    match plat with
    | Windows => emit (ShowInfo "File sent successfully!")
    | MacOS =>
        emit (SentNotice (path_name file_path));;
        if root self then emit (ShowInfo "File sent successfully!") else mret ()
    end w3 = Some (w4, inr ()) ∧
    trace w4 = trace w3 ++ sent_events path_name plat self file_path).
  { unfold sent_events, mbind, io_bind, emit.
    destruct plat, (root self); eexists; (split; [reflexivity |]); cbn [trace];
      by rewrite <- ?app_assoc. }
  destruct Hdone as (w4 & Hdone & Htrace4).
  exists w4, chunks. unfold sending. fold header.
  unfold mbind at 1, io_bind at 1. rewrite Hconnect.
  unfold mbind at 1, io_bind at 1. rewrite Hheader.
  unfold mbind at 1, io_bind at 1. rewrite Hloop.
  split_and!; [exact Hdone | done | done |].
  rewrite Htrace4, Htrace. subst w2. cbn [trace].
  by rewrite <- !app_assoc.
Qed.

(** C8, as the code has it.  For a file that exists, [send_file] always
    comes back without raising, and the events it adds end with exactly
    one [Close] (followed only by the reset of the progress variable,
    when there is one), whatever the socket did.  When the connection
    is made and every write goes through, the events before [Close] are:
    the connect, one write of the header [{filename, filesize}], then
    the file in chunks of at most 8192 bytes that add up to the file,
    each followed, only when a progress variable is there, by its
    setting to the share sent, and last the success notice. *)
Theorem send_file_spec plat self file_path target content w :
  disk w !! file_path = Some content →
  ∃ w' before,
    send_file path_name plat self file_path target w = Some (w', inr ()) ∧
    trace w' = trace w ++ before ++
               (Close :: if progress_var self then [ProgressReset] else []) ∧
    (Close ∉ before) ∧
    (∀ ip port,
       dev_ip target = JStr ip → dev_port target = JInt port →
       (0 ≤ port ≤ 65535)%Z →
       reachable w = true →
       Forall (eq true) (send_oracle w) →
       progress_usable plat self →
       ∃ chunks,
         concat chunks = content ∧
         Forall (λ c, 0 < length c ≤ CHUNK)%nat chunks ∧
         before =
           [Connect ip port;
            Send (JsonText (JDict [("filename", JStr (path_name file_path));
                                   ("filesize", JInt (Z.of_nat (length content)))]))]
           ++ chunk_events self (length content) 0 chunks
           ++ sent_events path_name plat self file_path).
Proof.
  intros Hfile. rewrite (send_file_existing _ _ _ _ _ _ Hfile).
  destruct (calm_try_except _ _
              (quiet_sending plat self file_path target content)
              (calm_send_failed plat self) w)
    as (w1 & before & Htry & Htrace & Hclose).
  exists {| disk := disk w1; inbound := inbound w1; reachable := reachable w1;
            send_oracle := send_oracle w1;
            trace := trace w1 ++
                     Close :: (if progress_var self then [ProgressReset] else []) |},
    before.
  split_and!.
  - unfold finally. rewrite Htry. unfold mbind, io_bind, emit.
    cbn [trace disk inbound reachable send_oracle].
    destruct (progress_var self); cbn; by rewrite <- ?app_assoc.
  - cbn [trace]. by rewrite Htrace, <- app_assoc.
  - done.
  - intros ip port Hip Hport Hrange Hreach Horacle Huse.
    destruct (sending_all_sent plat self file_path target content w ip port
                Hip Hport Hrange Hreach Horacle Huse)
      as (w2 & chunks & Hrun & Hcat & Hall & Htrace2).
    exists chunks. split_and!; [done | done |].
    unfold try_except in Htry. rewrite Hrun in Htry.
    injection Htry as <-. rewrite Htrace2 in Htrace.
    by apply app_inv_head in Htrace.
Qed.

End TransferFacts.


(** The same run on Windows, the user having clicked yes; and a reset in
    the middle of the body, which is logged. *)
Example short_read_windows :
  (trace ∘ fst) <$> example_handle Windows true short_connection
  = Some [AskYesNo (JStr "a.txt") (JInt 10);
          ReceivedNotice "/Users/u/Downloads/a.txt";
          Close].
Proof. vm_compute; reflexivity. Qed.

Example reset_is_logged :
  (trace ∘ fst) <$>
    example_handle MacOS false
      {| disk := ∅;
         inbound := [Segment (dict_text short_header); Segment three_bytes; ConnReset];
         reachable := true; send_oracle := []; trace := [] |}
  = Some [IncomingNotice (JStr "a.txt") (JInt 10);
          Print "File transfer error" OSError;
          Close].
Proof. vm_compute; reflexivity. Qed.

Example refusal_is_answered :
  (trace ∘ fst) <$> example_handle Windows false short_connection
  = Some [AskYesNo (JStr "a.txt") (JInt 10); Send (Raw REJECTED); Close].
Proof. vm_compute; reflexivity. Qed.

Example basename_example : basename "/Users/u/notes.txt" = "notes.txt".
Proof. reflexivity. Qed.

Lemma send_file_spec_witness :
  ∃ w' before chunks,
    example_send Windows windowed "/Users/u/notes.txt" desk sender_world
    = Some (w', inr ()) ∧
    trace w' = before ++ [Close; ProgressReset] ∧
    concat chunks = three_bytes ∧
    before = [Connect "10.0.0.7" 5001; Send (JsonText notes_header)]
             ++ chunk_events windowed 3 0 chunks
             ++ [ShowInfo "File sent successfully!"].
Proof.
  destruct (send_file_spec basename Windows windowed "/Users/u/notes.txt" desk
              three_bytes sender_world)
    as (w' & before & Hrun & Htrace & _ & Hsent).
  - vm_compute. reflexivity.
  - destruct (Hsent "10.0.0.7" 5001%Z) as (chunks & Hcat & _ & Hbefore).
    + reflexivity.
    + reflexivity.
    + lia.
    + reflexivity.
    + constructor.
    + right. left. reflexivity.
    + exists w', before, chunks.
      split; [exact Hrun | split; [exact Htrace | split; [exact Hcat | exact Hbefore]]].
Defined.

(** The same send, run: with a progress variable every chunk is followed
    by its setting. *)
Example send_with_progress :
  (trace ∘ fst) <$> example_send Windows windowed "/Users/u/notes.txt" desk sender_world
  = Some [Connect "10.0.0.7" 5001; Send (JsonText notes_header);
          Send (Raw three_bytes); ProgressSet 3 3; UpdateIdletasks;
          ShowInfo "File sent successfully!"; Close; ProgressReset].
Proof. vm_compute; reflexivity. Qed.

(** C8, refuted as stated: the application as [__init__] leaves it has no
    progress variable, and a send then sets no progress at all. *)
Lemma send_file_without_progress :
  progress_var (init "host") = false ∧
  (trace ∘ fst) <$>
    example_send Windows (init "host") "/Users/u/notes.txt" desk sender_world
  = Some [Connect "10.0.0.7" 5001; Send (JsonText notes_header);
          Send (Raw three_bytes);
          ShowInfo "File sent successfully!"; Close] ∧
  ∀ sent total,
    ProgressSet sent total ∉
      [Connect "10.0.0.7" 5001; Send (JsonText notes_header);
       Send (Raw three_bytes);
       ShowInfo "File sent successfully!"; Close].
Proof.
  split; [reflexivity |]. split; [vm_compute; reflexivity |].
  intros sent total Hin.
  repeat (apply elem_of_cons in Hin as [Hin | Hin]; [discriminate |]).
  by apply elem_of_nil in Hin.
Qed.

(** A file of 8197 bytes goes out as a chunk of 8192 and one of 5. *)
Example long_file_chunks :
  (λ r, omap (λ e, match e with Send (Raw c) => Some (length c) | _ => None end)
          (trace r.1)) <$>
    example_send MacOS (init "host") "/Users/u/long.bin" desk sender_world
  = Some [8192; 5].
Proof. vm_compute; reflexivity. Qed.

(** A peer that cannot be reached, and a write that fails after the
    header: the socket is closed all the same. *)
Example unreachable_peer_is_closed :
  (trace ∘ fst) <$>
    example_send Windows (init "host") "/Users/u/notes.txt" desk
      {| disk := disk sender_world; inbound := []; reachable := false;
         send_oracle := []; trace := [] |}
  = Some [ShowSendError OSError; Close].
Proof. vm_compute; reflexivity. Qed.

Example failed_write_is_closed :
  (trace ∘ fst) <$>
    example_send MacOS (init "host") "/Users/u/notes.txt" desk
      {| disk := disk sender_world; inbound := []; reachable := true;
         send_oracle := [true; false]; trace := [] |}
  = Some [Connect "10.0.0.7" 5001; Send (JsonText notes_header);
          SendFailureNotice OSError; Close].
Proof. vm_compute; reflexivity. Qed.

(** A path that names nothing: no socket, nothing to close. *)
Example missing_file_no_socket :
  (trace ∘ fst) <$>
    example_send Windows (init "host") "/Users/u/none.txt" desk sender_world
  = Some [ShowError "File not found!"].
Proof. vm_compute; reflexivity. Qed.

(** On Windows a progress variable without a window stops the send after
    the first chunk. *)
Example windows_progress_without_window :
  (trace ∘ fst) <$>
    example_send Windows
      {| web_port := 4848; device_name := "host"; devices := ∅; running := true;
         pending_files := ∅; transfer_history := [];
         root := false; device_listbox := false; progress_var := true |}
      "/Users/u/long.bin" desk sender_world
  = Some [Connect "10.0.0.7" 5001;
          Send (JsonText (JDict [("filename", JStr "long.bin"); ("filesize", JInt 8197)]));
          Send (Raw (replicate 8192 Byte.x00)); ProgressSet 8192 8197;
          ShowSendError AttributeError; Close; ProgressReset].
Proof. vm_compute; reflexivity. Qed.

(** * Further properties *)

(** ** The registry over runs of requests *)

Section RoutesFacts.

Variable expanduser_home : string.
Variable os_path_join : string → string → string.

Lemma serve_all_cons self fs r rest :
  serve_all expanduser_home os_path_join self fs (r :: rest)
  = ((serve_all expanduser_home os_path_join
        (dispatch expanduser_home os_path_join self fs r).1.1
        (dispatch expanduser_home os_path_join self fs r).1.2 rest).1.1,
     (serve_all expanduser_home os_path_join
        (dispatch expanduser_home os_path_join self fs r).1.1
        (dispatch expanduser_home os_path_join self fs r).1.2 rest).1.2,
     (dispatch expanduser_home os_path_join self fs r).2 ::
     (serve_all expanduser_home os_path_join
        (dispatch expanduser_home os_path_join self fs r).1.1
        (dispatch expanduser_home os_path_join self fs r).1.2 rest).2).
Proof.
  cbn [serve_all].
  destruct (dispatch _ _ self fs r) as [[self1 fs1] resp]. cbn [fst snd].
  by destruct (serve_all _ _ self1 fs1 rest) as [[self2 fs2] resps].
Qed.

Lemma registry_ok_dispatch self fs r :
  registry_ok expanduser_home os_path_join self →
  registry_ok expanduser_home os_path_join
    (dispatch expanduser_home os_path_join self fs r).1.1.
Proof.
  intros [Hpend Hhist].
  destruct r as [| | request_files file_id now writable | file_id now | file_id];
    cbn [dispatch]; try done.
  - unfold upload_file. destruct (request_files !! "file") as [file|]; [| done].
    case_decide as Hname; [done |]. destruct writable; [| done].
    unfold getsize. rewrite lookup_insert_eq. cbn. split; [| done].
    intros k e. cbn. rewrite lookup_insert. case_decide.
    + intros [= <-]. by subst.
    + apply Hpend.
  - unfold download_file.
    destruct (pending_files self !! file_id) as [entry|] eqn:Hl; [| done].
    cbn. split.
    + intros k e. cbn. rewrite lookup_delete. case_decide; [done | apply Hpend].
    + cbn. apply Forall_app. split; [done |]. by repeat constructor.
  - unfold remove_file.
    destruct (pending_files self !! file_id) as [entry|] eqn:Hl; [| done].
    cbn. split; [| done].
    intros k e. cbn. rewrite lookup_delete. case_decide; [done | apply Hpend].
Qed.

Lemma registry_ok_serve_all self fs rs :
  registry_ok expanduser_home os_path_join self →
  registry_ok expanduser_home os_path_join
    (serve_all expanduser_home os_path_join self fs rs).1.1.
Proof.
  revert self fs. induction rs as [| r rs IH]; intros self fs Hok; [done |].
  rewrite serve_all_cons. cbn [fst snd]. apply IH.
  by apply registry_ok_dispatch.
Qed.

(** X1. Whatever requests have been served since start-up, every entry of
    the registry is filed under its own id, is [pending], has a name and
    points at the Desktop path of that name, and every record of the
    history is [completed] and names this device. *)
Theorem registry_ok_reachable hostname fs rs :
  registry_ok expanduser_home os_path_join
    (serve_all expanduser_home os_path_join (init hostname) fs rs).1.1.
Proof.
  apply registry_ok_serve_all. split; [| constructor].
  intros k e H. cbn in H. by rewrite lookup_empty in H.
Qed.

(** What a request does to the history: a download that finds its id
    appends one record, every other request leaves the history alone. *)
Lemma transfer_history_dispatch self fs r :
  ∃ added,
    transfer_history (dispatch expanduser_home os_path_join self fs r).1.1
    = transfer_history self ++ added ∧
    length added
    = (if download_hit r (dispatch expanduser_home os_path_join self fs r).2
       then 1 else 0)%nat.
Proof.
  destruct r as [| | request_files file_id now writable | file_id now | file_id];
    cbn [dispatch download_hit].
  - exists []. by rewrite app_nil_r.
  - exists []. by rewrite app_nil_r.
  - exists []. rewrite app_nil_r. split; [| done].
    unfold upload_file. destruct (request_files !! "file") as [file|]; [| done].
    case_decide; [done |]. destruct writable; [| done].
    unfold getsize. by rewrite lookup_insert_eq.
  - destruct (pending_files self !! file_id) as [entry|] eqn:Hl.
    + rewrite (download_file_present _ _ _ _ _ Hl). cbn [fst snd].
      eexists [_]. split; [done |].
      unfold flask_send_file. by destruct (fs !! pf_path entry).
    + rewrite (download_file_absent _ _ _ _ Hl). exists []. by rewrite app_nil_r.
  - exists []. rewrite app_nil_r. split; [| done].
    unfold remove_file. by destruct (pending_files self !! file_id).
Qed.

(** X2. The history is append-only: over any run of requests the old
    history stays as a prefix, and it grows by exactly one record for
    each download that was not answered 404, whether or not the file could
    be sent. *)
Theorem transfer_history_grows_by_hits self fs rs :
  ∃ added,
    transfer_history (serve_all expanduser_home os_path_join self fs rs).1.1
    = transfer_history self ++ added ∧
    length added
    = length (filter (λ x, download_hit x.1 x.2)
                (zip rs (serve_all expanduser_home os_path_join self fs rs).2)).
Proof.
  revert self fs. induction rs as [| r rs IH]; intros self fs.
  - exists []. by rewrite app_nil_r.
  - rewrite serve_all_cons. cbn [fst snd zip zip_with].
    destruct (transfer_history_dispatch self fs r) as (added1 & Hh1 & Hn1).
    destruct (IH (dispatch expanduser_home os_path_join self fs r).1.1
                 (dispatch expanduser_home os_path_join self fs r).1.2)
      as (added2 & Hh2 & Hn2).
    exists (added1 ++ added2). split.
    + by rewrite Hh2, Hh1, app_assoc.
    + rewrite length_app, Hn1, Hn2, filter_cons. cbn [fst snd].
      destruct (download_hit r _); by case_decide.
Qed.

(** X3. Whatever requests have been served since start-up, the listing of
    [/api/pending_files] carries each id once, and has as many entries as
    ids are filed. *)
Theorem pending_listing_distinct hostname fs rs :
  NoDup (pf_id <$> get_pending_files
           (serve_all expanduser_home os_path_join (init hostname) fs rs).1.1) ∧
  length (get_pending_files
            (serve_all expanduser_home os_path_join (init hostname) fs rs).1.1)
  = size (pending_files
            (serve_all expanduser_home os_path_join (init hostname) fs rs).1.1).
Proof.
  pose proof (registry_ok_serve_all (init hostname) fs rs) as [Hpend _].
  { split; [| constructor]. intros k e H. cbn in H. by rewrite lookup_empty in H. }
  set (m := pending_files _) in *. unfold get_pending_files. fold m.
  split.
  - assert (Hids : pf_id <$> (map_to_list m).*2 = (map_to_list m).*1).
    { rewrite <- list_fmap_compose. apply list_fmap_ext.
      intros i [k e] Hin. cbn.
      apply list_elem_of_lookup_2, elem_of_map_to_list in Hin.
      by apply Hpend in Hin as [? _]. }
    rewrite Hids. apply NoDup_fst_map_to_list.
  - by rewrite length_fmap, length_map_to_list.
Qed.

End RoutesFacts.

(** X4. Of two downloads of one id in a row the second is answered 404 and
    changes neither the registry, the history nor the disk: an id is
    handed out at most once. *)
Theorem second_download_not_found self fs file_id now1 now2 :
  let r1 := download_file self fs file_id now1 in
  let r2 := download_file r1.1.1 r1.1.2 file_id now2 in
  status_code r2.2 = 404%Z ∧ r2.1 = r1.1.
Proof.
  intros r1 r2. subst r1 r2.
  destruct (pending_files self !! file_id) as [entry|] eqn:Hl.
  - rewrite (download_file_present _ _ _ _ _ Hl). cbn [fst snd].
    by rewrite download_file_absent by apply lookup_delete_eq.
  - rewrite (download_file_absent _ _ _ _ Hl). cbn [fst snd].
    by rewrite (download_file_absent _ _ _ _ Hl).
Qed.

(** ** Uploads that share a filename, and what a request leaves alone *)

Section SharedStorageFacts.

Variable expanduser_home : string.
Variable os_path_join : string → string → string.

(** The state after two accepted uploads in a row. *)
Lemma upload_twice self fs req1 req2 file1 file2 id1 id2 t1 t2 :
  req1 !! "file" = Some file1 → filename file1 ≠ "" →
  req2 !! "file" = Some file2 → filename file2 ≠ "" →
  (upload_file expanduser_home os_path_join
     (upload_file expanduser_home os_path_join self fs req1 id1 t1 true).1.1
     (upload_file expanduser_home os_path_join self fs req1 id1 t1 true).1.2
     req2 id2 t2 true).1
  = (set_pending_files self
       (<[id2 := filed_entry expanduser_home os_path_join file2 id2 t2]>
          (<[id1 := filed_entry expanduser_home os_path_join file1 id1 t1]>
             (pending_files self))),
     <[desktop_path expanduser_home os_path_join (filename file2) := stream file2]>
       (<[desktop_path expanduser_home os_path_join (filename file1) := stream file1]> fs)).
Proof.
  intros H1 Hn1 H2 Hn2.
  rewrite (upload_file_accepted _ _ _ _ _ _ _ _ H1 Hn1). cbn [fst snd].
  by rewrite (upload_file_accepted _ _ _ _ _ _ _ _ H2 Hn2).
Qed.

(** X5. When a filename is uploaded twice, a download of the first id
    hands out the bytes of the second upload, while the entry that was
    listed for the first id still gave the length of the first. *)
Theorem download_after_overwrite self fs req1 req2 file1 file2 id1 id2 t1 t2 now :
  req1 !! "file" = Some file1 → filename file1 ≠ "" →
  req2 !! "file" = Some file2 → filename file2 = filename file1 →
  id1 ≠ id2 →
  let up1 := upload_file expanduser_home os_path_join self fs req1 id1 t1 true in
  let up2 := upload_file expanduser_home os_path_join up1.1.1 up1.1.2 req2 id2 t2 true in
  (download_file up2.1.1 up2.1.2 id1 now).2 = SendFile (filename file1) (stream file2) ∧
  pf_size <$> pending_files up2.1.1 !! id1 = Some (length (stream file1)).
Proof.
  intros H1 Hn1 H2 Hsame Hne up1 up2. subst up1 up2.
  assert (Hn2 : filename file2 ≠ "") by congruence.
  pose proof (upload_twice self fs req1 req2 file1 file2 id1 id2 t1 t2
                H1 Hn1 H2 Hn2) as Hst.
  destruct (upload_file _ _ _ _ req2 id2 t2 true) as [[self2 fs2] resp2].
  cbn [fst snd] in *. injection Hst as -> ->.
  assert (Hl : pending_files
            (set_pending_files self
               (<[id2 := filed_entry expanduser_home os_path_join file2 id2 t2]>
                  (<[id1 := filed_entry expanduser_home os_path_join file1 id1 t1]>
                     (pending_files self)))) !! id1
          = Some (filed_entry expanduser_home os_path_join file1 id1 t1)).
  { cbn. rewrite lookup_insert_ne by done. apply lookup_insert_eq. }
  rewrite (download_file_present _ _ _ _ _ Hl). rewrite Hl. cbn.
  split; [| done].
  unfold flask_send_file. rewrite Hsame. by rewrite lookup_insert_eq.
Qed.

(** X6. When a filename is uploaded twice and the first entry is removed,
    the second id is still filed but nothing is stored under its path any
    more: its download fails with a server error, and all the same takes
    the entry out of the registry and writes a [completed] record. *)
Theorem remove_deletes_shared_storage self fs req1 req2 file1 file2 id1 id2 t1 t2 now :
  req1 !! "file" = Some file1 → filename file1 ≠ "" →
  req2 !! "file" = Some file2 → filename file2 = filename file1 →
  id1 ≠ id2 →
  let up1 := upload_file expanduser_home os_path_join self fs req1 id1 t1 true in
  let up2 := upload_file expanduser_home os_path_join up1.1.1 up1.1.2 req2 id2 t2 true in
  let rm := remove_file up2.1.1 up2.1.2 id1 in
  let dl := download_file rm.1.1 rm.1.2 id2 now in
  status_code rm.2 = 200%Z ∧
  (∃ entry2, pending_files rm.1.1 !! id2 = Some entry2 ∧ rm.1.2 !! pf_path entry2 = None) ∧
  dl.2 = InternalServerError ∧
  pending_files dl.1.1 !! id2 = None ∧
  transfer_history dl.1.1
  = transfer_history self ++
    [ {| tr_file_name := filename file1; tr_device := device_name self;
         tr_transfer_time := now; tr_status := "completed" |} ].
Proof.
  intros H1 Hn1 H2 Hsame Hne up1 up2 rm dl. subst dl rm up1 up2.
  assert (Hn2 : filename file2 ≠ "") by congruence.
  pose proof (upload_twice self fs req1 req2 file1 file2 id1 id2 t1 t2
                H1 Hn1 H2 Hn2) as Hst.
  destruct (upload_file _ _ _ _ req2 id2 t2 true) as [[self2 fs2] resp2].
  cbn [fst snd] in *. injection Hst as -> ->.
  set (e1 := filed_entry expanduser_home os_path_join file1 id1 t1).
  set (e2 := filed_entry expanduser_home os_path_join file2 id2 t2).
  rewrite (remove_file_present _ _ _ e1)
    by (cbn; rewrite lookup_insert_ne by done; apply lookup_insert_eq).
  cbn [fst snd pending_files set_pending_files].
  assert (Hl2 : pending_files
            (set_pending_files self
               (delete id1 (<[id2 := e2]> (<[id1 := e1]> (pending_files self))))) !! id2
          = Some e2).
  { cbn. rewrite lookup_delete_ne by done. apply lookup_insert_eq. }
  assert (Hpath : pf_path e2 = pf_path e1) by (subst e1 e2; cbn; by rewrite Hsame).
  assert (Hgone : delete (pf_path e1)
                    (<[desktop_path expanduser_home os_path_join (filename file2)
                       := stream file2]>
                       (<[desktop_path expanduser_home os_path_join (filename file1)
                          := stream file1]> fs))
                  !! pf_path e2 = None).
  { rewrite Hpath. apply lookup_delete_eq. }
  split; [done |]. split; [by exists e2 |].
  rewrite (download_file_present _ _ _ _ _ Hl2). cbn [fst snd].
  unfold flask_send_file. rewrite Hgone. split; [done |].
  split; [apply lookup_delete_eq |].
  subst e2. cbn. by rewrite Hsame.
Qed.


End SharedStorageFacts.

(** ** Where the macOS build stores an upload ([posixpath.join]) *)






(** X8. The macOS build stores an upload whose filename begins with [/]
    under that very path, outside the Desktop folder, and records that
    path in the entry. *)
Theorem absolute_filename_escapes_desktop home self fs request_files file file_id now :
  request_files !! "file" = Some file →
  starts_with_slash (filename file) = true →
  let up := upload_file home posixpath_join self fs request_files file_id now true in
  status_code up.2 = 200%Z ∧
  up.1.2 !! filename file = Some (stream file) ∧
  pf_path <$> pending_files up.1.1 !! file_id = Some (filename file).
Proof.
  intros Hfile Habs up. subst up.
  assert (Hname : filename file ≠ "") by (by destruct (filename file)).
  rewrite (upload_file_accepted _ _ _ _ _ _ _ _ Hfile Hname). cbn [fst snd].
  assert (Hpath : desktop_path home posixpath_join (filename file) = filename file).
  { unfold desktop_path, posixpath_join. by rewrite Habs. }
  rewrite Hpath. split; [done |]. split; [apply lookup_insert_eq |].
  cbn. by rewrite lookup_insert_eq.
Qed.


(** ** More on the discovery loop *)

Section DiscoveryMore.

Variable json_loads : bytes → option json.
Variable py_str : json → string.

Lemma eq_str_true v s : eq_str v s = true → v = JStr s.
Proof. destruct v; cbn; try done. by intros ->%bool_decide_eq_true. Qed.

(** Where a datagram that a turn sends comes from. *)
Lemma discovery_iteration_sendto self t m a :
  Sendto m a ∈ (discovery_iteration json_loads py_str self t).2 →
  (discovery_iteration json_loads py_str self t).1 = self ∧
  m = JDict [("type", JStr "response");
             ("device_name", JStr (device_name self));
             ("ip", JStr (local_ip t))] ∧
  ∃ data message,
    recvfrom t = inr (data, a) ∧
    json_loads data = Some message ∧
    subscript message "type" = inr (JStr "discovery").
Proof.
  unfold discovery_iteration, discovery_body, loads.
  destruct (recvfrom t) as [e | [data addr]] eqn:Hrecv; cbn.
  { destruct (running self); cbn; intros Hin;
      [apply list_elem_of_singleton in Hin; discriminate | by apply elem_of_nil in Hin]. }
  destruct (json_loads data) as [message|] eqn:Hloads; cbn.
  2:{ destruct (running self); cbn; intros Hin;
        [apply list_elem_of_singleton in Hin; discriminate | by apply elem_of_nil in Hin]. }
  destruct (subscript message "type") as [e | ty] eqn:Hty; cbn.
  { destruct (running self); cbn; intros Hin;
      [apply list_elem_of_singleton in Hin; discriminate | by apply elem_of_nil in Hin]. }
  destruct (eq_str ty "discovery") eqn:Hd.
  - apply eq_str_true in Hd as ->.
    destruct (sendto_ok t); cbn.
    + intros Hin. apply list_elem_of_singleton in Hin. injection Hin as -> ->.
      split; [done |]. split; [done |]. by exists data, message.
    + destruct (running self); cbn; intros Hin;
        [apply list_elem_of_singleton in Hin; discriminate | by apply elem_of_nil in Hin].
  - destruct (eq_str ty "response"); cbn.
    + destruct (subscript message "ip") as [e | ip]; cbn.
      { destruct (running self); cbn; intros Hin;
          [apply list_elem_of_singleton in Hin; discriminate | by apply elem_of_nil in Hin]. }
      destruct (subscript message "port") as [e | port]; cbn.
      { destruct (running self); cbn; intros Hin;
          [apply list_elem_of_singleton in Hin; discriminate | by apply elem_of_nil in Hin]. }
      destruct (subscript message "device_name") as [e | name]; cbn.
      { destruct (running self); cbn; intros Hin;
          [apply list_elem_of_singleton in Hin; discriminate | by apply elem_of_nil in Hin]. }
      unfold update_device_list. cbn.
      destruct (device_listbox self); cbn; intros Hin;
        [apply list_elem_of_singleton in Hin; discriminate | by apply elem_of_nil in Hin].
    + intros Hin. by apply elem_of_nil in Hin.
Qed.

(** X10. A turn of the discovery loop sends a datagram only in answer to
    a message of type [discovery]: it goes to the address that message
    came from, it is the three-key reply, and such a turn changes nothing
    in the object; no other turn sends anything. *)
Theorem discovery_sends_only_replies self t m a :
  Sendto m a ∈ (discovery_iteration json_loads py_str self t).2 →
  (discovery_iteration json_loads py_str self t).1 = self ∧
  (discovery_iteration json_loads py_str self t).2 = [Sendto m a] ∧
  m = JDict [("type", JStr "response");
             ("device_name", JStr (device_name self));
             ("ip", JStr (local_ip t))] ∧
  ∃ data message,
    recvfrom t = inr (data, a) ∧
    json_loads data = Some message ∧
    subscript message "type" = inr (JStr "discovery").
Proof.
  intros Hin.
  destruct (discovery_iteration_sendto self t m a Hin)
    as (Hself & -> & data & message & Hrecv & Hloads & Hty).
  split; [done |]. split; [| split; [done | by exists data, message]].
  revert Hin. unfold discovery_iteration, discovery_body, loads.
  rewrite Hrecv. cbn. rewrite Hloads. cbn. rewrite Hty. cbn.
  destruct (sendto_ok t); cbn; [done |].
  destruct (running self); cbn; intros Hin;
    [apply list_elem_of_singleton in Hin; discriminate | by apply elem_of_nil in Hin].
Qed.

(** X11. The reply this program sends is never filed by this program: a
    turn whose datagram decodes to what a turn of any instance has sent
    raises a [KeyError] for the missing [port], is logged, and leaves the
    peer table as it was. *)
Theorem own_reply_is_dropped sender t0 m a0 receiver t data addr :
  Sendto m a0 ∈ (discovery_iteration json_loads py_str sender t0).2 →
  recvfrom t = inr (data, addr) →
  json_loads data = Some m →
  discovery_body json_loads py_str receiver t = inl KeyError ∧
  discovery_iteration json_loads py_str receiver t
  = (receiver, if running receiver then [Print "Discovery error" KeyError] else []).
Proof.
  intros Hsent Hrecv Hloads.
  destruct (discovery_iteration_sendto sender t0 m a0 Hsent) as (_ & -> & _).
  unfold discovery_iteration, discovery_body, loads.
  rewrite Hrecv. cbn. by rewrite Hloads.
Qed.

Lemma devices_set_running self b : devices (set_running self b) = devices self.
Proof. done. Qed.

(** X12. The peer table never forgets: whatever the loop is fed, a key
    that is in the table stays in it. *)
Theorem peer_table_never_forgets self inputs k :
  is_Some (devices self !! k) →
  is_Some (devices (discovery_loop json_loads py_str self inputs).1.1 !! k).
Proof.
  revert self. induction inputs as [| i inputs IH]; intros self Hk; [done |].
  cbn [discovery_loop]. destruct (running self); [| done].
  destruct i as [t |].
  - pose proof (discovery_iteration_devices json_loads py_str self t) as Hdev.
    destruct (discovery_iteration json_loads py_str self t) as [self1 out1].
    cbn [fst] in Hdev.
    specialize (IH self1).
    destruct (discovery_loop json_loads py_str self1 inputs) as [[self2 out2] unread].
    cbn [fst] in *. apply IH. rewrite Hdev.
    destruct (response_entry json_loads py_str t) as [[k' d] |]; [| done].
    rewrite lookup_insert. by case_decide.
  - apply IH. by rewrite devices_set_running.
Qed.

End DiscoveryMore.

(** ** More on the receive handler *)



Section ReceiveMore.

Variable json_loads : bytes → option json.
Variable downloads_file : string → string.

(** X13. A frame whose header cannot be read (it does not decode, it is no
    dict, it lacks [filename] or [filesize]) ends the connection at once:
    no dialog or notice is shown, the exception is logged, the socket is
    closed, the disk is left as it was and nothing after the frame is
    read. *)
Theorem unreadable_header_aborts plat answer w frame rest e :
  take_segment HEADER_FRAME (inbound w) = (inr frame, rest) →
  header_error json_loads frame = Some e →
  handle_file_transfer json_loads downloads_file plat answer w
  = Some ({| disk := disk w; inbound := rest; reachable := reachable w;
             send_oracle := send_oracle w;
             trace := trace w ++ [Print "File transfer error" e; Close] |}, inr ()).
Proof.
  intros Htake Herr.
  unfold handle_file_transfer, finally, try_except.
  unfold mbind at 1, io_bind at 1, recv. rewrite Htake.
  unfold header_error in Herr. unfold lift, loads.
  destruct (json_loads frame) as [file_info |].
  2:{ injection Herr as <-. unfold mbind, io_bind, emit, raise. cbn.
      by rewrite <- app_assoc. }
  unfold mbind at 1, io_bind at 1. cbn [mret result_ret].
  unfold mbind at 1, io_bind at 1.
  destruct (subscript file_info "filename") as [e1 | name].
  { injection Herr as <-. unfold emit. cbn. by rewrite <- app_assoc. }
  unfold mbind at 1, io_bind at 1.
  destruct (subscript file_info "filesize") as [e2 | size]; [| done].
  injection Herr as <-. unfold emit. cbn. by rewrite <- app_assoc.
Qed.

(** X14. A transfer that the Windows user refuses writes nothing to the
    disk and reads nothing of the body: the dialog is shown, the literal
    [REJECTED] is written to the socket and the socket is closed; when
    that write fails the failure is logged and the socket closed all the
    same. *)
Theorem refused_transfer_writes_nothing w frame rest file_info name size :
  take_segment HEADER_FRAME (inbound w) = (inr frame, rest) →
  json_loads frame = Some file_info →
  subscript file_info "filename" = inr name →
  subscript file_info "filesize" = inr size →
  ∃ w',
    handle_file_transfer json_loads downloads_file Windows false w = Some (w', inr ()) ∧
    disk w' = disk w ∧
    inbound w' = rest ∧
    trace w' = trace w ++
               [AskYesNo name size;
                match send_oracle w with
                | false :: _ => Print "File transfer error" OSError
                | _ => Send (Raw REJECTED)
                end;
                Close].
Proof.
  intros Htake Hloads Hname Hsize.
  unfold handle_file_transfer, finally, try_except.
  unfold mbind at 1, io_bind at 1, recv. rewrite Htake.
  unfold lift, loads. rewrite Hloads.
  unfold mbind at 1, io_bind at 1. cbn [mret result_ret].
  unfold mbind at 1, io_bind at 1. rewrite Hname.
  unfold mbind at 1, io_bind at 1. rewrite Hsize.
  unfold mbind, io_bind, emit, sock_send. cbn [mret io_ret trace send_oracle].
  destruct (send_oracle w) as [| [|] later]; eexists;
    (split; [reflexivity |]); cbn; by rewrite <- !app_assoc.
Qed.



End ReceiveMore.

(** ** More on the sender *)

(** What [read_chunks] hands out adds up to the file, and every chunk
    that is followed by another one is full. *)
Lemma read_chunks_concat fuel later :
  (length later ≤ fuel)%nat → concat (read_chunks fuel later) = later.
Proof.
  revert later. induction fuel as [| fuel IH]; intros later Hfuel.
  - by destruct later; [| cbn in Hfuel; lia].
  - cbn [read_chunks].
    destruct later as [| b later]; [by rewrite take_nil |].
    pose proof CHUNK_pos as Hpos.
    destruct (take CHUNK (b :: later)) as [| b' chunk] eqn:Hchunk.
    { apply (f_equal length) in Hchunk. rewrite length_take in Hchunk.
      cbn [length] in Hchunk. lia. }
    cbn [concat]. rewrite IH.
    + by rewrite <- Hchunk, take_drop.
    + rewrite length_drop. cbn [length] in *. lia.
Qed.

Lemma read_chunks_nil fuel : read_chunks fuel [] = [].
Proof. destruct fuel; [done |]. cbn [read_chunks]. by rewrite take_nil. Qed.

Lemma read_chunks_full fuel later i chunk :
  read_chunks fuel later !! i = Some chunk →
  is_Some (read_chunks fuel later !! S i) →
  length chunk = CHUNK.
Proof.
  revert later i. induction fuel as [| fuel IH]; intros later i Hi Hnext; [done |].
  cbn [read_chunks] in Hi, Hnext.
  destruct (take CHUNK later) as [| b c] eqn:Hchunk; [done |].
  destruct i as [| i].
  - injection Hi as <-.
    change (is_Some (read_chunks fuel (drop CHUNK later) !! 0)) in Hnext.
    rewrite <- Hchunk, length_take.
    destruct (drop CHUNK later) as [| b' rest] eqn:Hdrop.
    { rewrite read_chunks_nil in Hnext. by destruct Hnext. }
    apply (f_equal length) in Hdrop. rewrite length_drop in Hdrop.
    cbn [length] in Hdrop. lia.
  - change (read_chunks fuel (drop CHUNK later) !! i = Some chunk) in Hi.
    change (is_Some (read_chunks fuel (drop CHUNK later) !! S i)) in Hnext.
    by apply (IH (drop CHUNK later) i).
Qed.

Lemma read_chunks_sizes fuel later :
  Forall (λ c, 0 < length c ≤ CHUNK)%nat (read_chunks fuel later).
Proof.
  revert later. induction fuel as [| fuel IH]; intros later; [constructor |].
  cbn [read_chunks].
  destruct (take CHUNK later) as [| b c] eqn:Hchunk; [constructor |].
  constructor; [| apply IH].
  rewrite <- Hchunk, length_take.
  apply (f_equal length) in Hchunk. rewrite length_take in Hchunk.
  cbn [length] in Hchunk. lia.
Qed.

Lemma raw_sends_app evs1 evs2 : raw_sends (evs1 ++ evs2) = raw_sends evs1 ++ raw_sends evs2.
Proof. apply omap_app. Qed.

Lemma raw_sends_chunk_events self total_size sent chunks :
  raw_sends (chunk_events self total_size sent chunks) = chunks.
Proof.
  revert sent. induction chunks as [| c chunks IH]; intros sent; [done |].
  cbn [chunk_events]. change (Send (Raw c) :: ?l) with ([Send (Raw c)] ++ l).
  rewrite !raw_sends_app, IH.
  by destruct (progress_var self), (root self).
Qed.





(** The sender's loop, with the chunks named. *)
Lemma send_loop_reads_chunks fuel plat self total_size sent later w :
  total_size = (sent + length later)%nat →
  Forall (eq true) (send_oracle w) →
  progress_usable plat self →
  (length later ≤ fuel)%nat →
  ∃ w',
    send_loop fuel plat self total_size sent later w = Some (w', inr ()) ∧
    disk w' = disk w ∧
    trace w' = trace w ++ chunk_events self total_size sent (read_chunks fuel later).
Proof.
  revert sent later w.
  induction fuel as [| fuel IH]; intros sent later w Htotal Horacle Huse Hfuel.
  - destruct later; [| cbn in Hfuel; lia].
    exists w. cbn [send_loop read_chunks chunk_events].
    replace (sent <? total_size)%nat with false
      by (symmetry; apply Nat.ltb_ge; cbn in Htotal; lia).
    by rewrite app_nil_r.
  - cbn [send_loop read_chunks].
    destruct (sent <? total_size)%nat eqn:Hlt.
    2:{ apply Nat.ltb_ge in Hlt. destruct later; [| cbn in Htotal; lia].
        exists w. rewrite take_nil. cbn [chunk_events]. by rewrite app_nil_r. }
    apply Nat.ltb_lt in Hlt.
    destruct later as [| b later]; [cbn in Htotal; lia |].
    pose proof CHUNK_pos as Hpos.
    destruct (take CHUNK (b :: later)) as [| b' chunk] eqn:Hchunk.
    { apply (f_equal length) in Hchunk. rewrite length_take in Hchunk.
      cbn [length] in Hchunk. lia. }
    set (c := b' :: chunk) in *.
    assert (Hsplit : b :: later = c ++ drop CHUNK (b :: later))
      by (by rewrite <- Hchunk, take_drop).
    assert (Hc : (0 < length c)%nat) by (subst c; cbn; lia).
    set (w1 := {| disk := disk w; inbound := inbound w; reachable := reachable w;
                  send_oracle := tail (send_oracle w);
                  trace := trace w ++ [Send (Raw c)] |}).
    assert (Hsend : sock_send (Raw c) w = Some (w1, inr ())).
    { unfold sock_send. destruct Horacle as [| [|] ? ? ?]; done. }
    set (progress :=
           if progress_var self then
             ProgressSet (sent + length c) total_size ::
             (if root self then [UpdateIdletasks] else [])
           else []).
    set (w2 := {| disk := disk w; inbound := inbound w; reachable := reachable w;
                  send_oracle := tail (send_oracle w);
                  trace := trace w ++ Send (Raw c) :: progress |}).
    assert (Hprogress :
      (if progress_var self then
         emit (ProgressSet (sent + length c) total_size);;
         match plat with
         | Windows => if root self then emit UpdateIdletasks else io_raise AttributeError
         | MacOS => if root self then emit UpdateIdletasks else mret ()
         end
       else mret ()) w1 = Some (w2, inr ())).
    { subst w1 w2 progress. unfold mbind, io_bind, emit.
      unfold progress_usable in Huse.
      destruct (progress_var self) eqn:Hp; [| done].
      destruct (root self) eqn:Hr.
      - destruct plat; cbn; by rewrite <- !app_assoc.
      - destruct Huse as [? | [? | ->]]; [done | done |].
        cbn. by rewrite <- !app_assoc. }
    destruct (IH (sent + length c)%nat (drop CHUNK (b :: later)) w2)
      as (w' & Hloop & Hdisk & Htrace).
    + rewrite Htotal, Hsplit at 1. rewrite length_app. lia.
    + subst w2. cbn [send_oracle]. destruct Horacle; [constructor | done].
    + done.
    + apply (f_equal length) in Hsplit. rewrite length_app in Hsplit.
      cbn [length] in *. lia.
    + exists w'.
      unfold mbind at 1, io_bind at 1. rewrite Hsend.
      unfold mbind at 1, io_bind at 1. rewrite Hprogress.
      split_and!; [exact Hloop | by rewrite Hdisk |].
      rewrite Htrace. subst w2 progress. cbn [trace chunk_events].
      by rewrite <- app_assoc.
Qed.

Section SendMore.

Variable path_name : string → string.

(** A send in which everything goes through, event by event. *)
Lemma send_file_all_sent plat self file_path target content w ip port :
  disk w !! file_path = Some content →
  dev_ip target = JStr ip → dev_port target = JInt port →
  (0 ≤ port ≤ 65535)%Z →
  reachable w = true →
  Forall (eq true) (send_oracle w) →
  progress_usable plat self →
  ∃ w',
    send_file path_name plat self file_path target w = Some (w', inr ()) ∧
    disk w' = disk w ∧
    trace w' = trace w ++
               [Connect ip port;
                Send (JsonText (JDict [("filename", JStr (path_name file_path));
                                       ("filesize", JInt (Z.of_nat (length content)))]))]
               ++ chunk_events self (length content) 0
                    (read_chunks (length content) content)
               ++ sent_events path_name plat self file_path
               ++ (Close :: if progress_var self then [ProgressReset] else []).
Proof.
  intros Hfile Hip Hport Hrange Hreach Horacle Huse.
  rewrite (send_file_existing _ _ _ _ _ _ _ Hfile).
  set (header := JDict [("filename", JStr (path_name file_path));
                        ("filesize", JInt (Z.of_nat (length content)))]).
  set (w1 := {| disk := disk w; inbound := inbound w; reachable := reachable w;
                send_oracle := send_oracle w; trace := trace w ++ [Connect ip port] |}).
  assert (Hconnect : connect target w = Some (w1, inr ())).
  { unfold connect. rewrite Hip, Hport. cbn [to_int mret result_ret].
    rewrite bool_decide_eq_true_2 by done. by rewrite Hreach. }
  set (w2 := {| disk := disk w; inbound := inbound w; reachable := reachable w;
                send_oracle := tail (send_oracle w);
                trace := (trace w ++ [Connect ip port]) ++ [Send (JsonText header)] |}).
  assert (Hheader : sock_send (JsonText header) w1 = Some (w2, inr ())).
  { unfold sock_send. subst w1 w2. cbn [send_oracle].
    destruct Horacle as [| [|] ? ? ?]; done. }
  destruct (send_loop_reads_chunks (length content) plat self (length content) 0
              content w2) as (w3 & Hloop & Hdisk3 & Htrace3);
    [done | | done | done |].
  { subst w2. cbn [send_oracle]. destruct Horacle; [constructor | done]. }
  assert (Hdone : ∃ w4,
    match plat with
    | Windows => emit (ShowInfo "File sent successfully!")
    | MacOS =>
        emit (SentNotice (path_name file_path));;
        if root self then emit (ShowInfo "File sent successfully!") else mret ()
    end w3 = Some (w4, inr ()) ∧
    disk w4 = disk w3 ∧
    trace w4 = trace w3 ++ sent_events path_name plat self file_path).
  { unfold sent_events, mbind, io_bind, emit.
    destruct plat, (root self); eexists; (split; [reflexivity |]); cbn [trace disk];
      by rewrite <- ?app_assoc. }
  destruct Hdone as (w4 & Hdone & Hdisk4 & Htrace4).
  assert (Hsending : sending path_name plat self file_path target content w
                     = Some (w4, inr ())).
  { unfold sending. fold header.
    unfold mbind at 1, io_bind at 1. rewrite Hconnect.
    unfold mbind at 1, io_bind at 1. rewrite Hheader.
    unfold mbind at 1, io_bind at 1. by rewrite Hloop. }
  unfold finally, try_except. rewrite Hsending.
  unfold mbind, io_bind, emit. cbn [trace disk inbound reachable send_oracle].
  destruct (progress_var self) eqn:Hp; eexists; (split; [reflexivity |]);
    cbn [trace disk]; rewrite Hdisk4, Hdisk3, Htrace4, Htrace3; subst w2;
    cbn [trace disk]; (split; [done |]); by rewrite <- !app_assoc.
Qed.

(** X17. When everything goes through, the raw writes of a send are the
    successive reads of 8192 bytes from the file: they add up to the
    file, and every write that is followed by another carries exactly
    8192 bytes. *)
Theorem send_file_chunks_are_full plat self file_path target content w ip port :
  disk w !! file_path = Some content →
  dev_ip target = JStr ip → dev_port target = JInt port →
  (0 ≤ port ≤ 65535)%Z →
  reachable w = true →
  Forall (eq true) (send_oracle w) →
  progress_usable plat self →
  ∃ w' added,
    send_file path_name plat self file_path target w = Some (w', inr ()) ∧
    trace w' = trace w ++ added ∧
    concat (raw_sends added) = content ∧
    ∀ i chunk,
      raw_sends added !! i = Some chunk →
      is_Some (raw_sends added !! S i) →
      length chunk = 8192%nat.
Proof.
  intros Hfile Hip Hport Hrange Hreach Horacle Huse.
  destruct (send_file_all_sent plat self file_path target content w ip port
              Hfile Hip Hport Hrange Hreach Horacle Huse)
    as (w' & Hrun & _ & Htrace).
  eexists w', _. split; [exact Hrun |]. split; [exact Htrace |].
  assert (Hraw : raw_sends
            ([Connect ip port;
              Send (JsonText (JDict [("filename", JStr (path_name file_path));
                                     ("filesize", JInt (Z.of_nat (length content)))]))]
             ++ chunk_events self (length content) 0
                  (read_chunks (length content) content)
             ++ sent_events path_name plat self file_path
             ++ (Close :: if progress_var self then [ProgressReset] else []))
          = read_chunks (length content) content).
  { rewrite !raw_sends_app, raw_sends_chunk_events.
    replace (raw_sends (sent_events path_name plat self file_path)) with (@nil bytes)
      by (unfold sent_events; by destruct plat, (root self)).
    replace (raw_sends (Close :: if progress_var self then [ProgressReset] else []))
      with (@nil bytes) by (by destruct (progress_var self)).
    cbn. by rewrite app_nil_r. }
  rewrite Hraw. split; [by apply read_chunks_concat |].
  intros i chunk Hi Hnext. apply (read_chunks_full _ _ _ _ Hi Hnext).
Qed.

End SendMore.

(** ** From the sender to the receiver *)

Section EndToEnd.

Variable json_loads : bytes → option json.
Variable json_dumps : json → bytes.
Variable downloads_file : string → string.
Variable path_name : string → string.


End EndToEnd.

(** ** What a transfer leaves alone on the disk *)


















(** X21. A peer entry cannot be sent to unless its [ip] is a string and
    its [port] an integer: with any other value the send raises a
    [TypeError] before it connects, writes nothing to the socket, shows
    the error and closes. *)
Theorem send_to_ill_typed_peer path_name plat self file_path target content w :
  disk w !! file_path = Some content →
  (∀ ip, dev_ip target ≠ JStr ip) ∨ to_int (dev_port target) = inl TypeError →
  send_file path_name plat self file_path target w
  = Some ({| disk := disk w; inbound := inbound w; reachable := reachable w;
             send_oracle := send_oracle w;
             trace := trace w ++
                      [match plat with
                       | Windows => ShowSendError TypeError
                       | MacOS => if root self then ShowSendError TypeError
                                  else SendFailureNotice TypeError
                       end;
                       Close] ++
                      (if progress_var self then [ProgressReset] else []) |},
           inr ()).
Proof.
  intros Hfile Hbad. rewrite (send_file_existing _ _ _ _ _ _ _ Hfile).
  assert (Hconnect : connect target w = Some (w, inl TypeError)).
  { unfold connect. destruct Hbad as [Hip | Hport].
    - destruct (dev_ip target) eqn:Hd; try done. by destruct (Hip s).
    - rewrite Hport. by destruct (dev_ip target). }
  unfold finally, try_except, sending.
  unfold mbind at 1, io_bind at 1. rewrite Hconnect.
  unfold send_failed, mbind, io_bind, emit.
  destruct plat, (root self), (progress_var self); cbn;
    by rewrite <- ?app_assoc.
Qed.

(** ** The web server monitor *)

Lemma threads_started_app evs1 evs2 :
  threads_started (evs1 ++ evs2) = threads_started evs1 ++ threads_started evs2.
Proof. apply omap_app. Qed.

(** What a turn of the monitor starts. *)
Lemma monitor_turn_starts self c :
  ws_running (monitor_turn self c).1 = ws_running self ∧
  (is_Some (web_server_thread self) →
   is_Some (web_server_thread (monitor_turn self c).1)) ∧
  (is_port_in_use (connect_ex c) = true →
   (monitor_turn self c).1 = self ∧ threads_started (monitor_turn self c).2 = []) ∧
  (is_Some (web_server_thread self) → is_alive c = true →
   (monitor_turn self c).1 = self ∧ threads_started (monitor_turn self c).2 = []) ∧
  (length (threads_started (monitor_turn self c).2) ≤ 1)%nat ∧
  (threads_started (monitor_turn self c).2 ≠ [] →
   is_Some (web_server_thread (monitor_turn self c).1)).
Proof.
  unfold monitor_turn, start_web_server.
  destruct (is_port_in_use (connect_ex c)); [by split_and!; cbn; try lia |].
  destruct (web_server_thread self) as [n |] eqn:Hheld,
           (is_alive c), (start_ok c); cbn;
    split_and!; intros; try done; try lia; try by eexists.
  all: by destruct H.
Qed.

(** X22. The monitor never doubles the server: over any run of turns in
    which the thread it holds is reported alive, it starts one thread at
    most, and none if it held one from the start; and over any run in
    which the probe connects every time it starts nothing and keeps what
    it holds. *)
Theorem monitor_starts_one_thread self ticks :
  (Forall (λ c, is_alive c = true) ticks →
   (length (threads_started (monitor_and_start_server self ticks).2)
    ≤ if web_server_thread self is Some _ then 0 else 1)%nat) ∧
  (Forall (λ c, is_port_in_use (connect_ex c) = true) ticks →
   threads_started (monitor_and_start_server self ticks).2 = [] ∧
   (monitor_and_start_server self ticks).1 = self).
Proof.
  split.
  - revert self. induction ticks as [| c ticks IH]; intros self Halive.
    { cbn. destruct (web_server_thread self); lia. }
    apply Forall_cons in Halive as [Hc Halive].
    cbn [monitor_and_start_server]. destruct (ws_running self); [| cbn; lia].
    destruct (monitor_turn_starts self c) as (_ & Hkeep & _ & Hheld & Hone & Hnew).
    specialize (IH (monitor_turn self c).1 Halive).
    destruct (monitor_turn self c) as [self1 out1]. cbn [fst snd] in *.
    destruct (monitor_and_start_server self1 ticks) as [self2 out2]. cbn [fst snd] in *.
    rewrite threads_started_app, length_app.
    destruct (web_server_thread self) as [n |].
    + destruct (Hheld (mk_is_Some _ _ eq_refl) Hc) as [-> ->].
      destruct (Hkeep (mk_is_Some _ _ eq_refl)) as [n' Hn']. by rewrite Hn' in IH.
    + destruct (threads_started out1) as [| n1 l1] eqn:Hout1.
      * cbn. destruct (web_server_thread self1); lia.
      * destruct Hnew as [n' Hn']; [done |]. rewrite Hn' in IH. cbn in *. lia.
  - revert self. induction ticks as [| c ticks IH]; intros self Hused; [done |].
    apply Forall_cons in Hused as [Hc Hused].
    cbn [monitor_and_start_server]. destruct (ws_running self); [| done].
    destruct (monitor_turn_starts self c) as (_ & _ & Hsame & _).
    destruct (Hsame Hc) as [Hself Hnone].
    destruct (monitor_turn self c) as [self1 out1]. cbn [fst snd] in *. subst self1.
    destruct (IH self Hused) as [IHnone IHself].
    destruct (monitor_and_start_server self ticks) as [self2 out2]. cbn [fst snd] in *.
    by rewrite threads_started_app, Hnone, IHnone.
Qed.

(** ** Runs of the further properties on concrete inputs *)

Lemma download_after_overwrite_witness :
  let up1 := example_upload (init "host") ∅ (one_part "a.txt" [Byte.x41]) "id-1" "t1" true in
  let up2 := example_upload up1.1.1 up1.1.2
               (one_part "a.txt" [Byte.x42; Byte.x42]) "id-2" "t2" true in
  (download_file up2.1.1 up2.1.2 "id-1" "t3").2 = SendFile "a.txt" [Byte.x42; Byte.x42] ∧
  pf_size <$> pending_files up2.1.1 !! "id-1" = Some 1.
Proof.
  apply (download_after_overwrite example_home posixpath_join (init "host") ∅
           (one_part "a.txt" [Byte.x41]) (one_part "a.txt" [Byte.x42; Byte.x42])
           (a_txt [Byte.x41]) (a_txt [Byte.x42; Byte.x42])
           "id-1" "id-2" "t1" "t2" "t3");
    first [vm_compute; reflexivity | discriminate].
Defined.

Lemma remove_deletes_shared_storage_witness :
  let up1 := example_upload (init "host") ∅ (one_part "a.txt" [Byte.x41]) "id-1" "t1" true in
  let up2 := example_upload up1.1.1 up1.1.2
               (one_part "a.txt" [Byte.x42; Byte.x42]) "id-2" "t2" true in
  let rm := remove_file up2.1.1 up2.1.2 "id-1" in
  let dl := download_file rm.1.1 rm.1.2 "id-2" "t3" in
  dl.2 = InternalServerError ∧
  transfer_history dl.1.1
  = [ {| tr_file_name := "a.txt"; tr_device := "host";
         tr_transfer_time := "t3"; tr_status := "completed" |} ].
Proof.
  destruct (remove_deletes_shared_storage example_home posixpath_join (init "host") ∅
              (one_part "a.txt" [Byte.x41]) (one_part "a.txt" [Byte.x42; Byte.x42])
              (a_txt [Byte.x41]) (a_txt [Byte.x42; Byte.x42])
              "id-1" "id-2" "t1" "t2" "t3")
    as (_ & _ & Hdl & _ & Hhist);
    [vm_compute; reflexivity | discriminate | vm_compute; reflexivity
    | reflexivity | discriminate |].
  split; [exact Hdl | exact Hhist].
Defined.


Lemma absolute_filename_escapes_desktop_witness :
  let up := example_upload (init "host") ∅
              (one_part "/tmp/planted" [Byte.x41]) "id-1" "t1" true in
  status_code up.2 = 200%Z ∧
  up.1.2 !! "/tmp/planted" = Some [Byte.x41] ∧
  pf_path <$> pending_files up.1.1 !! "id-1" = Some "/tmp/planted".
Proof.
  apply (absolute_filename_escapes_desktop example_home (init "host") ∅
           (one_part "/tmp/planted" [Byte.x41])
           {| filename := "/tmp/planted"; stream := [Byte.x41] |} "id-1" "t1");
    vm_compute; reflexivity.
Defined.


Lemma discovery_sends_only_replies_witness :
  (example_iteration (init "host") (datagram (dict_text discovery_msg) 0)).1 = init "host" ∧
  (example_iteration (init "host") (datagram (dict_text discovery_msg) 0)).2
  = [Sendto (JDict [("type", JStr "response"); ("device_name", JStr "host");
                    ("ip", JStr "10.0.0.2")])
            ("10.0.0.7", 40000%Z)].
Proof.
  destruct (discovery_sends_only_replies example_loads str_scalar (init "host")
              (datagram (dict_text discovery_msg) 0)
              (JDict [("type", JStr "response"); ("device_name", JStr "host");
                      ("ip", JStr "10.0.0.2")])
              ("10.0.0.7", 40000%Z))
    as (Hself & Hout & _).
  - vm_compute. left.
  - split; [exact Hself | exact Hout].
Defined.

Lemma own_reply_is_dropped_witness :
  example_iteration (init "other") (datagram (dict_text portless_msg) 5)
  = (init "other", [Print "Discovery error" KeyError]).
Proof.
  destruct (own_reply_is_dropped example_loads str_scalar
              {| web_port := 4848; device_name := "desk"; devices := ∅; running := true;
                 pending_files := ∅; transfer_history := [];
                 root := false; device_listbox := false; progress_var := false |}
              {| recvfrom := inr (dict_text discovery_msg, ("10.0.0.2", 40000%Z));
                 local_ip := "10.0.0.7"; sendto_ok := true; clock := 0 |}
              (JDict portless_msg) ("10.0.0.2", 40000%Z)
              (init "other")
              (datagram (dict_text portless_msg) 5)
              (dict_text portless_msg) ("10.0.0.7", 40000%Z))
    as [_ Hdropped].
  - vm_compute. left.
  - reflexivity.
  - vm_compute. reflexivity.
  - exact Hdropped.
Defined.

Lemma peer_table_never_forgets_witness :
  is_Some (devices
             (example_loop
                (example_loop (init "host") (Recv <$> three_responses)).1.1
                (Recv <$> rough_turns)).1.1 !! "10.0.0.7:5001").
Proof.
  apply (peer_table_never_forgets example_loads str_scalar
           (example_loop (init "host") (Recv <$> three_responses)).1.1
           (Recv <$> rough_turns) "10.0.0.7:5001").
  vm_compute. by eexists.
Defined.

Lemma unreadable_header_aborts_witness :
  example_handle MacOS false garbage_connection
  = Some ({| disk := ∅; inbound := [Segment three_bytes]; reachable := true;
             send_oracle := [];
             trace := [Print "File transfer error" ValueError; Close] |}, inr ()).
Proof.
  apply (unreadable_header_aborts transfer_loads example_downloads MacOS false
           garbage_connection (String.list_byte_of_string "hello")
           [Segment three_bytes] ValueError).
  - vm_compute. reflexivity.
  - vm_compute. reflexivity.
Defined.

Lemma refused_transfer_writes_nothing_witness :
  ∃ w',
    example_handle Windows false short_connection = Some (w', inr ()) ∧
    disk w' = ∅ ∧
    inbound w' = [Segment three_bytes] ∧
    trace w' = [AskYesNo (JStr "a.txt") (JInt 10); Send (Raw REJECTED); Close].
Proof.
  apply (refused_transfer_writes_nothing transfer_loads example_downloads
           short_connection (dict_text short_header) [Segment three_bytes]
           (JDict short_header) (JStr "a.txt") (JInt 10)).
  - vm_compute. reflexivity.
  - vm_compute. reflexivity.
  - reflexivity.
  - reflexivity.
Defined.



Lemma send_file_chunks_are_full_witness :
  ∃ w' added,
    example_send MacOS (init "host") "/Users/u/long.bin" desk sender_world
    = Some (w', inr ()) ∧
    trace w' = added ∧
    concat (raw_sends added) = long_file ∧
    ∀ i chunk,
      raw_sends added !! i = Some chunk →
      is_Some (raw_sends added !! S i) →
      length chunk = 8192%nat.
Proof.
  apply (send_file_chunks_are_full basename MacOS (init "host") "/Users/u/long.bin"
           desk long_file sender_world "10.0.0.7" 5001%Z).
  - vm_compute. reflexivity.
  - reflexivity.
  - reflexivity.
  - lia.
  - reflexivity.
  - constructor.
  - by left.
Defined.



Lemma send_to_ill_typed_peer_witness :
  (trace ∘ fst) <$>
    example_send Windows (init "host") "/Users/u/notes.txt" ill_typed_desk sender_world
  = Some [ShowSendError TypeError; Close].
Proof.
  unfold example_send.
  rewrite (send_to_ill_typed_peer basename Windows (init "host") "/Users/u/notes.txt"
             ill_typed_desk three_bytes sender_world).
  - reflexivity.
  - vm_compute. reflexivity.
  - right. reflexivity.
Defined.

Lemma monitor_starts_one_thread_witness :
  (length (threads_started
             (monitor_and_start_server fresh_monitor
                [port_free; port_free; port_free]).2) ≤ 1)%nat ∧
  threads_started (monitor_and_start_server fresh_monitor [port_taken; port_taken]).2 = [].
Proof.
  split.
  - apply (monitor_starts_one_thread fresh_monitor [port_free; port_free; port_free]).
    repeat constructor.
  - apply (monitor_starts_one_thread fresh_monitor [port_taken; port_taken]).
    repeat constructor.
Defined.

(** A monitor that finds the port free three times in a row, its thread
    alive, starts one thread. *)
Example monitor_run :
  (monitor_and_start_server fresh_monitor [port_free; port_free; port_free]).2
  = [PortFree 4848; ThreadStarted 0 4848; InterfaceStarted 4848; Sleep 60;
     PortFree 4848; Sleep 60;
     PortFree 4848; Sleep 60].
Proof. reflexivity. Qed.

(** ** Two more edges *)

(** X23. An upload followed at once by the download of its id hands out
    exactly the uploaded bytes under the uploaded filename, whatever the
    disk and the registry held before. *)
Theorem upload_then_download_round_trip
    home join self fs request_files file file_id now now' :
  request_files !! "file" = Some file →
  filename file ≠ "" →
  let up := upload_file home join self fs request_files file_id now true in
  (download_file up.1.1 up.1.2 file_id now').2 = SendFile (filename file) (stream file) ∧
  pf_size <$> pending_files up.1.1 !! file_id = Some (length (stream file)).
Proof.
  intros Hfile Hname up. subst up.
  rewrite (upload_file_accepted _ _ _ _ _ _ _ _ Hfile Hname). cbn [fst snd].
  assert (Hl : pending_files
            (set_pending_files self
               (<[file_id := filed_entry home join file file_id now]>
                  (pending_files self))) !! file_id
          = Some (filed_entry home join file file_id now))
    by apply lookup_insert_eq.
  change {| pf_id := file_id; pf_name := filename file;
            pf_path := desktop_path home join (filename file);
            pf_size := length (stream file);
            pf_upload_time := now; pf_status := "pending" |}
    with (filed_entry home join file file_id now).
  rewrite (download_file_present _ _ _ _ _ Hl), Hl. cbn.
  split; [| done]. unfold flask_send_file. by rewrite lookup_insert_eq.
Qed.

Lemma upload_then_download_round_trip_witness :
  (download_file after_one_upload.1.1 after_one_upload.1.2 "id-1" "t2").2
  = SendFile "test.txt" eleven_bytes ∧
  pf_size <$> pending_files after_one_upload.1.1 !! "id-1" = Some 11.
Proof.
  apply (upload_then_download_round_trip example_home posixpath_join (init "host") ∅
           (one_part "test.txt" eleven_bytes)
           {| filename := "test.txt"; stream := eleven_bytes |} "id-1" "t1" "t2").
  - vm_compute. reflexivity.
  - discriminate.
Defined.

Section HeaderEdges.

Variable json_loads : bytes → option json.
Variable downloads_file : string → string.


End HeaderEdges.

